(** * customs-cli: the import lifecycle client

    A shallow embedding of the Go program of drotsolutions/customs-cli
    (package [main]): the row mapper and the reconciler of [main], and the
    three remote operations of the client ([sendImportRequest],
    [waitForProcessing], [getImportResponse]).

    The repository holds two revisions of each file.  The program embedded
    here is the consistent pair with the [--timeout] flag (the [main] with
    the "result EU" / "result NO" columns and the client with the flat
    [customsTerritories] field); [prepareApiKey] exists only in [client.go]
    and is embedded in [Module ClientGo].

    Conventions.
    - A Go [string] is a [string] of bytes.  [strings.HasPrefix],
      [strings.TrimPrefix] and [strings.Split] work on bytes and are
      modelled as such.  [strings.ToLower], [strings.EqualFold] and
      [strings.TrimSpace] work on Unicode text: [Module strings] computes
      them on ASCII text, as Go does, and takes their results on a text
      with a byte above 127 from the environment ([Unicode]), since they
      depend on the Unicode tables of the Go runtime.
    - A slice is a [list]; an index expression [s[i]] out of range is the
      run-time panic [IndexOutOfRange]; a field read through a nil pointer
      is the panic [NilDereference].
    - [log.Fatalln] ends the process: it is the outcome [Err] of [main].
    - The effects of the program (sheet writes, HTTP requests, sleeps,
      prints) are recorded in order in a trace of [event]s. *)

From Stdlib Require Import ZArith Lia Ascii String.
From stdpp Require Import base option list strings.

Local Open Scope string_scope.

(** ** The Go library functions the program calls *)

(** What the Go runtime answers on a text that is not ASCII. *)
Record Unicode : Type := {
  unicodeToLower : string -> string;     (* strings.ToLower *)
  unicodeFoldKey : string -> string;     (* the text under Unicode simple case folding,
                                            each letter replaced by the representative of
                                            its folding orbit (the lower-case ASCII letter
                                            when the orbit has one) *)
  unicodeTrimSpace : string -> string    (* strings.TrimSpace *)
}.

Module strings.

(** A text of bytes below [utf8.RuneSelf] (128). *)
Fixpoint isASCII (s : string) : bool :=
  match s with
  | EmptyString => true
  | String c r => (nat_of_ascii c <? 128)%nat && isASCII r
  end.

(** [unicode.IsSpace] on ASCII: tab, line feed, vertical tab, form feed,
    carriage return and space. *)
Definition isSpace (c : ascii) : bool :=
  let n := nat_of_ascii c in
  ((9 <=? n)%nat && (n <=? 13)%nat) || (n =? 32)%nat.

Definition isUpper (c : ascii) : bool :=
  let n := nat_of_ascii c in (65 <=? n)%nat && (n <=? 90)%nat.

Definition toLower (c : ascii) : ascii :=
  if isUpper c then ascii_of_nat (nat_of_ascii c + 32) else c.

(** The ASCII path of [strings.ToLower]: ['A']..['Z'] to ['a']..['z']. *)
Fixpoint asciiToLower (s : string) : string :=
  match s with
  | EmptyString => EmptyString
  | String c r => String (toLower c) (asciiToLower r)
  end.

(** [strings.ToLower] *)
Definition ToLower (u : Unicode) (s : string) : string :=
  if isASCII s then asciiToLower s else unicodeToLower u s.

(** The text under case folding: on ASCII text the lower-cased text. *)
Definition foldKey (u : Unicode) (s : string) : string :=
  if isASCII s then asciiToLower s else unicodeFoldKey u s.

(** [strings.EqualFold]: equality under Unicode case folding.  On two
    ASCII texts, Go's byte loop: equal lengths, and byte by byte equal up
    to the case of a letter. *)
Definition EqualFold (u : Unicode) (s t : string) : bool :=
  String.eqb (foldKey u s) (foldKey u t).

Fixpoint trimLeft (s : string) : string :=
  match s with
  | EmptyString => EmptyString
  | String c r => if isSpace c then trimLeft r else s
  end.

Fixpoint trimRight (s : string) : string :=
  match s with
  | EmptyString => EmptyString
  | String c r =>
      match trimRight r with
      | EmptyString => if isSpace c then EmptyString else String c EmptyString
      | r' => String c r'
      end
  end.

(** The ASCII path of [strings.TrimSpace]. *)
Definition asciiTrimSpace (s : string) : string := trimRight (trimLeft s).

(** [strings.TrimSpace]: leading and trailing white space removed. *)
Definition TrimSpace (u : Unicode) (s : string) : string :=
  if isASCII s then asciiTrimSpace s else unicodeTrimSpace u s.

(** [strings.HasPrefix] *)
Fixpoint HasPrefix (s p : string) {struct p} : bool :=
  match p, s with
  | EmptyString, _ => true
  | String b p', String a s' => Ascii.eqb a b && HasPrefix s' p'
  | String _ _, EmptyString => false
  end.

(** [strings.TrimPrefix]: [s] without the leading [p], or [s] itself
    when [s] does not start with [p].  One occurrence is removed. *)
Definition TrimPrefix (s p : string) : string :=
  if HasPrefix s p then String.substring (String.length p) (String.length s - String.length p) s
  else s.

(** [strings.Split(s, sep)] for a separator of one byte, the only use
    the program makes of it ([","]).  The result is never empty:
    a string without the separator yields the one-element slice [[s]]. *)
Fixpoint Split (s : string) (sep : ascii) : list string :=
  match s with
  | EmptyString => [EmptyString]
  | String c r =>
      if Ascii.eqb c sep then EmptyString :: Split r sep
      else match Split r sep with
           | h :: t => String c h :: t
           | [] => [String c EmptyString]
           end
  end.

End strings.

(** [slices.Contains] on strings. *)
Definition slices_Contains (l : list string) (x : string) : bool :=
  existsb (String.eqb x) l.

(** ** Errors, panics and results *)

(** The errors the program builds, with the arguments of their format
    strings. *)
Inductive error : Type :=
  | ErrMissingApiKey                 (* "missing api-key flag" *)
  | ErrMissingURL                    (* "missing url flag" *)
  | ErrMissingFilePath               (* "please provide the excel file path ..." *)
  | ErrEmptyFile                     (* "provided file is empty or it doesn't have the headings row" *)
  | ErrMissingColumn (name : string) (* "provided file has no %q column" *)
  | ErrUnsupportedTerritory (territory : string)
                                     (* "customs territory %q is not supported" *)
  | ErrInvalidGrossMass (id : string)(* "invalid gross mass for item %q" *)
  | ErrInvalidNetMass (id : string)  (* "invalid net mass for item %q" *)
  | ErrLibrary (msg : string)        (* an error returned by excelize, net/http, io or encoding/json *)
  | ErrUnexpectedStatusImporting (code : nat) (body : string)
                                     (* "unexpected status code while importing items %d\n%s\n" *)
  | ErrUnexpectedStatusGetting (code : nat) (body : string)
                                     (* "unexpected status code while getting an import %d\n%s\n" *)
  | ErrFailed                        (* "failed" *)
  | ErrNotProcessed                  (* "not processed" *)
  | ErrProcessingImport              (* "error processing import" *)
  | ErrRowNotFound (id : string).    (* "... row with item id %q is not found" *)

Inductive panic : Type :=
  | IndexOutOfRange
  | NilDereference.

Inductive result (A : Type) : Type :=
  | Ok (a : A)
  | Err (e : error)
  | Panic (p : panic).
Arguments Ok {A} a.
Arguments Err {A} e.
Arguments Panic {A} p.

(** [s[i]] on a slice. *)
Definition index {A} (s : list A) (i : nat) : result A :=
  match s !! i with
  | Some x => Ok x
  | None => Panic IndexOutOfRange
  end.

(** ** client.go: the Authorization header *)

Module ClientGo.

(** [func prepareApiKey(apiKey string) string] *)
Definition prepareApiKey (apiKey : string) : string :=
  "Bearer " +:+ strings.TrimPrefix apiKey "Bearer ".

Inductive operation := Submit | Poll | Fetch.

(** The value of [req.Header.Add("Authorization", ...)] in
    [sendImportRequest] (Submit), [waitForProcessing] (Poll) and
    [getImportResponse] (Fetch) of client.go. *)
Definition authorization (op : operation) (apiKey : string) : string :=
  match op with
  | Submit => prepareApiKey apiKey
  | Poll => prepareApiKey apiKey
  | Fetch => prepareApiKey apiKey
  end.

End ClientGo.

(** ** client: the wire types *)

(** A [float64] is kept as its IEEE 754 bit pattern; the program never
    computes with one. *)
Definition float64 : Type := Z.

Record ImportItemRequest : Type := {
  ID : string;
  Name : string;
  Description : string;
  CustomsTerritories : list string;
  Category : option string;
  Subcategory : option string;
  CountryOfOrigin : option string;
  GrossMass : option float64;
  NetMass : option float64;
  WeightUnit : option string;
  Model : option string
}.

Record ImportRequest : Type := { ImportItems : list ImportItemRequest }.

Record ImportStatus : Type := { Status : string }.

Record CustomsCodesResponse : Type := {
  CustomsTerritory : string;
  Code : string
}.

(** [ImportItemResponse]; [time.Time] values are kept as their text. *)
Record ImportItemResponse : Type := {
  itemID : string;
  itemName : string;
  itemDescription : string;
  itemCategory : option string;
  itemSubcategory : option string;
  itemCountryOfOrigin : option string;
  itemGrossMass : option float64;
  itemNetMass : option float64;
  itemWeightUnit : option string;
  itemCustomsTerritories : list string;
  Tarics : list CustomsCodesResponse;
  itemStatus : string;
  itemError : option string;
  Attempts : Z;
  MaxAttempts : Z;
  itemCreatedAt : string;
  itemUpdatedAt : string
}.

Record ImportResponse : Type := {
  responseID : string;
  responseItems : list ImportItemResponse;
  CreatedAt : string;
  UpdatedAt : string
}.

Definition ImportItemStatusPending : string := "pending".
Definition ImportItemStatusProcessing : string := "processing".
Definition ImportItemStatusProcessed : string := "processed".
Definition ImportItemStatusFailed : string := "failed".

(** [func (i ImportItemResponse) getTaricByTerritory(territory string) *CustomsCodesResponse]:
    the first entry of [Tarics] for the territory, or the nil pointer. *)
Fixpoint getTaricByTerritory_loop (tarics : list CustomsCodesResponse) (territory : string)
  : option CustomsCodesResponse :=
  match tarics with
  | [] => None
  | taric :: rest =>
      if String.eqb (CustomsTerritory taric) territory then Some taric
      else getTaricByTerritory_loop rest territory
  end.

Definition getTaricByTerritory (i : ImportItemResponse) (territory : string)
  : option CustomsCodesResponse :=
  getTaricByTerritory_loop (Tarics i) territory.

(** [p.Code] through a pointer [p]. *)
Definition deref_Code (p : option CustomsCodesResponse) : result string :=
  match p with
  | Some taric => Ok (Code taric)
  | None => Panic NilDereference
  end.

(** ** The environment of a run *)

(** An [*http.Response] as the client reads it. *)
Record Response : Type := {
  StatusCode : nat;
  HeaderLocation : string;            (* res.Header.Get("Location") *)
  ReadAll : string * option string;   (* io.ReadAll(res.Body): the bytes read and the error *)
  BodyClose : option string           (* res.Body.Close() *)
}.

(** What the libraries, the file system and the server answer.  A value
    [inl msg] is a non-nil [error]; an [option string] is an [error] that
    may be nil. *)
Record World : Type := {
  GoUnicode : Unicode;                                (* the Unicode tables of the runtime *)
  ParseFloat : string -> string + float64;            (* strconv.ParseFloat(value, 64) *)
  Marshal : ImportRequest -> string + string;         (* json.Marshal *)
  UnmarshalStatus : string -> string + option string; (* json.Unmarshal into ImportStatus:
                                                         the "status" member when the document has one *)
  UnmarshalImport : string -> string + ImportResponse;(* json.Unmarshal into ImportResponse *)
  NewRequest : string -> string -> option string;     (* http.NewRequest(method, url, _) *)
  OpenFile : string -> option string;                 (* excelize.OpenFile *)
  GetRows : string + list (list string);              (* file.GetRows("Sheet1") *)
  SetSheetRow : nat -> list string -> option string;  (* file.SetSheetRow("Sheet1", "A<n>", &row) *)
  SaveAs : string -> option string;                   (* file.SaveAs *)
  FileClose : option string;                          (* file.Close *)
  DoSubmit : string + Response;                       (* http.DefaultClient.Do of the POST *)
  DoStatus : nat -> string + Response;                (* ... of the status GET of iteration i *)
  DoFetch : string + Response                         (* ... of the final GET *)
}.

(** ** main: the row mapper *)

Definition customsTerritoryEU : string := "eu".
Definition customsTerritoryNO : string := "no".
Definition allowedCustomsTerritories : list string :=
  [customsTerritoryEU; customsTerritoryNO].

(** [func getColumnIndex(row []string, name string) *int]: the nil pointer
    is [None]. *)
Fixpoint getColumnIndex_from (w : World) (i : nat) (row : list string) (name : string)
  : option nat :=
  match row with
  | [] => None
  | rowName :: rest =>
      if strings.EqualFold (GoUnicode w) name (strings.TrimSpace (GoUnicode w) rowName)
      then Some i
      else getColumnIndex_from w (S i) rest name
  end.

Definition getColumnIndex (w : World) (row : list string) (name : string) : option nat :=
  getColumnIndex_from w 0 row name.

(** [func getMandatoryColumnIndex(row []string, name string) (int, error)] *)
Definition getMandatoryColumnIndex (w : World) (row : list string) (name : string)
  : result nat :=
  match getColumnIndex w row name with
  | None => Err (ErrMissingColumn name)
  | Some i => Ok i
  end.

(** [func getString(row []string, i *int) string] *)
Definition getString (row : list string) (i : option nat) : result string :=
  match i with
  | None => Ok ""
  | Some i => index row i
  end.

(** [func getStringPtr(row []string, i *int) *string] *)
Definition getStringPtr (row : list string) (i : option nat) : result (option string) :=
  match i with
  | None => Ok None
  | Some i =>
      match index row i with
      | Ok s => Ok (Some s)
      | Err e => Err e
      | Panic p => Panic p
      end
  end.

(** The loop of [prepareCustomsTerritories] over the pieces of the cell;
    [acc] is the slice [result] built so far. *)
Fixpoint prepareCustomsTerritories_loop (w : World) (pieces : list string)
    (acc : list string) : result (list string) :=
  match pieces with
  | [] => Ok acc
  | territory :: rest =>
      let territory :=
        strings.TrimSpace (GoUnicode w) (strings.ToLower (GoUnicode w) territory) in
      if negb (slices_Contains allowedCustomsTerritories territory)
      then Err (ErrUnsupportedTerritory territory)
      else prepareCustomsTerritories_loop w rest (acc ++ [territory])
  end.

(** [func prepareCustomsTerritories(customsTerritories string) ([]string, error)] *)
Definition prepareCustomsTerritories (w : World) (customsTerritories : string)
  : result (list string) :=
  prepareCustomsTerritories_loop w (strings.Split customsTerritories ",") [].

(** ** Effects *)

Inductive event : Type :=
  | EvPrintHelp
  | EvSetSheetRow (rowNumber : nat) (row : list string)
  | EvHTTP (method url authorization : string) (body : option string)
  | EvSleep                                  (* time.Sleep(time.Second) *)
  | EvPrintWaiting                           (* "waiting for the import job " *)
  | EvPrintDot                               (* "." *)
  | EvPrintStatus (doc : ImportStatus)       (* "\n%v\n" of the status document *)
  | EvSaveAs (path : string)
  | EvPrintDone (path : string)              (* "Done! The output is written to: %q" *)
  | EvFileClose.

(** A computation: the events it performed, in order, and how it ended. *)
Definition M (A : Type) : Type := (list event * result A)%type.

Definition ret {A} (a : A) : M A := ([], Ok a).

Definition bind {A B} (m : M A) (k : A -> M B) : M B :=
  match m with
  | (t, Ok a) => let (t', r) := k a in ((t ++ t')%list, r)
  | (t, Err e) => (t, Err e)
  | (t, Panic p) => (t, Panic p)
  end.

Definition emit (ev : event) : M unit := ([ev], Ok tt).
Definition lift {A} (r : result A) : M A := ([], r).
Definition fail {A} (e : error) : M A := ([], Err e).

(** A library call returning [(value, error)]. *)
Definition lib {A} (r : string + A) : M A :=
  match r with
  | inl msg => fail (ErrLibrary msg)
  | inr a => ret a
  end.

(** A library call returning only an [error]. *)
Definition libErr (r : option string) : M unit :=
  match r with
  | Some msg => fail (ErrLibrary msg)
  | None => ret tt
  end.

Notation "'do' x <- m ; k" := (bind m (fun x => k))
  (at level 10, x name, m at level 100, k at level 200).
Notation "'do' ' pat <- m ; k" := (bind m (fun x => match x with pat => k end))
  (at level 10, pat pattern, m at level 100, k at level 200).
Notation "m ;; k" := (bind m (fun _ => k))
  (at level 100, k at level 200, right associativity).

(** The same for code without effects. *)
Definition rbind {A B} (r : result A) (k : A -> result B) : result B :=
  match r with
  | Ok a => k a
  | Err e => Err e
  | Panic p => Panic p
  end.

Notation "'try' x <- r ; k" := (rbind r (fun x => k))
  (at level 10, x name, r at level 100, k at level 200).

(** ** client: submit, poll, fetch *)

Definition StatusCreated : nat := 201.
Definition StatusOK : nat := 200.

(** [func sendImportRequest(request ImportRequest, url, apiKey string) (string, error)] *)
Definition sendImportRequest (w : World) (request : ImportRequest) (url apiKey : string)
  : M string :=
  do body <- lib (Marshal w request);
  let target := url +:+ "/api/v1/items/imports" in
  libErr (NewRequest w "POST" target) ;;
  emit (EvHTTP "POST" target ("Bearer " +:+ apiKey) (Some body)) ;;
  do res <- lib (DoSubmit w);
  if negb (StatusCreated =? StatusCode res)%nat
  then fail (ErrUnexpectedStatusImporting (StatusCode res) (fst (ReadAll res)))
  else ret (HeaderLocation res).

(** The body of a response read to its end and closed. *)
Definition readBody (res : Response) : M string :=
  match ReadAll res with
  | (_, Some msg) => fail (ErrLibrary msg)
  | (resBody, None) => libErr (BodyClose res) ;; ret resBody
  end.

(** [func getImportResponse(url, importLocation, apiKey string) (ptr ImportResponse, error)] *)
Definition getImportResponse (w : World) (url importLocation apiKey : string)
  : M ImportResponse :=
  let target := url +:+ importLocation in
  libErr (NewRequest w "GET" target) ;;
  emit (EvHTTP "GET" target ("Bearer " +:+ apiKey) None) ;;
  do res <- lib (DoFetch w);
  if negb (StatusOK =? StatusCode res)%nat
  then fail (ErrUnexpectedStatusGetting (StatusCode res) (fst (ReadAll res)))
  else
    do resBody <- readBody res;
    lib (UnmarshalImport w resBody).

(** One status request of [waitForProcessing], iteration [i]: from
    [http.NewRequest] to [json.Unmarshal].  The result is the "status"
    member of the decoded document, when it has one. *)
Definition getStatus (w : World) (url importLocation apiKey : string) (i : nat)
  : M (option string) :=
  let target := url +:+ importLocation +:+ "/status" in
  libErr (NewRequest w "GET" target) ;;
  emit (EvHTTP "GET" target ("Bearer " +:+ apiKey) None) ;;
  do res <- lib (DoStatus w i);
  do resBody <- readBody res;
  lib (UnmarshalStatus w resBody).

(** [json.Unmarshal(resBody, &importStatusResponse)]: a member absent from
    the document leaves the field as it was. *)
Definition updateStatus (doc : ImportStatus) (member : option string) : ImportStatus :=
  match member with
  | Some s => {| Status := s |}
  | None => doc
  end.

(** The [for i := 0; i < timeout; i++] loop of [waitForProcessing]:
    [ticks] iterations are left, [i] is the loop variable and [doc] the
    variable [importStatusResponse]. *)
Fixpoint waitForProcessing_loop (w : World) (url importLocation apiKey : string)
    (ticks i : nat) (doc : ImportStatus) : M unit :=
  match ticks with
  | O => emit (EvPrintStatus doc) ;; fail ErrNotProcessed
  | S ticks' =>
      emit EvPrintDot ;;
      do member <- getStatus w url importLocation apiKey i;
      let doc := updateStatus doc member in
      if String.eqb (Status doc) ImportItemStatusFailed then fail ErrFailed
      else if String.eqb (Status doc) ImportItemStatusProcessed then ret tt
      else
        emit EvSleep ;;
        waitForProcessing_loop w url importLocation apiKey ticks' (S i) doc
  end.

(** [func waitForProcessing(url, importLocation, apiKey string, timeout int) error] *)
Definition waitForProcessing (w : World) (url importLocation apiKey : string) (timeout : Z)
  : M unit :=
  emit EvPrintWaiting ;;
  waitForProcessing_loop w url importLocation apiKey (Z.to_nat timeout) 0 {| Status := "" |}.

(** ** main: the rest of the row mapper, and the reconciler *)

(** [func getRowByItemID(rows [][]string, idIndex int, itemID string) (int, []string)]:
    the nil slice is [None]. *)
Fixpoint getRowByItemID_from (i : nat) (rows : list (list string)) (idIndex : nat)
    (itemID : string) : result (nat * option (list string)) :=
  match rows with
  | [] => Ok (0, None)
  | row :: rest =>
      try cell <- index row idIndex;
      if String.eqb itemID cell then Ok (i, Some row)
      else getRowByItemID_from (S i) rest idIndex itemID
  end.

Definition getRowByItemID (rows : list (list string)) (idIndex : nat) (itemID : string)
  : result (nat * option (list string)) :=
  getRowByItemID_from 0 rows idIndex itemID.

(** [func getFloatPtr(row []string, i *int) (ptr float64, error)] *)
Definition getFloatPtr (w : World) (row : list string) (i : option nat)
  : result (option float64) :=
  match i with
  | None => Ok None
  | Some i =>
      try value <- index row i;
      if String.eqb value "" then Ok None
      else match ParseFloat w value with
           | inl msg => Err (ErrLibrary msg)
           | inr f => Ok (Some f)
           end
  end.

(** The column positions [main] resolves from the headings row. *)
Record Columns : Type := {
  iID : nat;
  iName : nat;
  iDescription : nat;
  iCustomsTerritories : nat;
  iCategory : option nat;
  iSubcategory : option nat;
  iCountryOfOrigin : option nat;
  iGrossMass : option nat;
  iNetMass : option nat;
  iWeightUnit : option nat;
  iModel : option nat
}.

Definition resolveColumns (w : World) (headings : list string) : result Columns :=
  try iID <- getMandatoryColumnIndex w headings "id";
  try iName <- getMandatoryColumnIndex w headings "name";
  try iDescription <- getMandatoryColumnIndex w headings "description";
  try iCustomsTerritories <- getMandatoryColumnIndex w headings "customs territories";
  Ok {| iID := iID; iName := iName; iDescription := iDescription;
        iCustomsTerritories := iCustomsTerritories;
        iCategory := getColumnIndex w headings "category";
        iSubcategory := getColumnIndex w headings "subcategory";
        iCountryOfOrigin := getColumnIndex w headings "country of origin";
        iGrossMass := getColumnIndex w headings "gross mass";
        iNetMass := getColumnIndex w headings "net mass";
        iWeightUnit := getColumnIndex w headings "weight unit";
        iModel := getColumnIndex w headings "model" |}.

(** The body of the loop [for i, row := range rows[1:]] of [main]. *)
Definition mapRow (w : World) (c : Columns) (row : list string) : result ImportItemRequest :=
  try id <- getString row (Some (iID c));
  try name <- getString row (Some (iName c));
  try description <- getString row (Some (iDescription c));
  try customsTerritoriesRaw <- getString row (Some (iCustomsTerritories c));
  try customsTerritories <- prepareCustomsTerritories w customsTerritoriesRaw;
  try category <- getStringPtr row (iCategory c);
  try subcategory <- getStringPtr row (iSubcategory c);
  try countryOfOrigin <- getStringPtr row (iCountryOfOrigin c);
  try grossMass <- match getFloatPtr w row (iGrossMass c) with
                   | Err _ => Err (ErrInvalidGrossMass id)
                   | r => r
                   end;
  try netMass <- match getFloatPtr w row (iNetMass c) with
                 | Err _ => Err (ErrInvalidNetMass id)
                 | r => r
                 end;
  try weightUnit <- getStringPtr row (iWeightUnit c);
  try model <- getStringPtr row (iModel c);
  Ok {| ID := id; Name := name; Description := description;
        Category := category; Subcategory := subcategory;
        CountryOfOrigin := countryOfOrigin;
        GrossMass := grossMass; NetMass := netMass;
        WeightUnit := weightUnit;
        CustomsTerritories := customsTerritories;
        Model := model |}.

(** The loop itself: the items of [imp.ImportItems], in row order. *)
Fixpoint mapRows (w : World) (c : Columns) (rows : list (list string))
  : result (list ImportItemRequest) :=
  match rows with
  | [] => Ok []
  | row :: rest =>
      try item <- mapRow w c row;
      try items <- mapRows w c rest;
      Ok (item :: items)
  end.

(** [for len(row) < n { row = append(row, empty) }], [empty] the empty string *)
Definition pad (row : list string) (n : nat) : list string :=
  (row ++ replicate (n - length row) "")%list.

(** [row[i] = v] *)
Definition assign (row : list string) (i : nat) (v : string) : result (list string) :=
  if (i <? length row)%nat then Ok (<[i := v]> row) else Panic IndexOutOfRange.

(** The body of the loop [for _, item := range importResponse.ImportItems]
    of [main]; [headings] is the headings row with the result columns. *)
Definition reconcileItem (w : World) (rows : list (list string)) (idIndex : nat)
    (headings : list string) (iResultEU iResultNO : nat) (item : ImportItemResponse)
  : M unit :=
  do ' (rowIndex, found) <- lift (getRowByItemID rows idIndex (itemID item));
  match found with
  | None => fail (ErrRowNotFound (itemID item))
  | Some row =>
      let rowIndex := S rowIndex in
      let row := pad row (length headings + 1) in
      let taricEU := getTaricByTerritory item customsTerritoryEU in
      let taricNO := getTaricByTerritory item customsTerritoryNO in
      do codeEU <- lift (deref_Code taricEU);
      do row <- lift (assign row iResultEU codeEU);
      do codeNO <- lift (deref_Code taricNO);
      do row <- lift (assign row iResultNO codeNO);
      emit (EvSetSheetRow rowIndex row) ;;
      libErr (SetSheetRow w rowIndex row)
  end.

Fixpoint reconcile (w : World) (rows : list (list string)) (idIndex : nat)
    (headings : list string) (iResultEU iResultNO : nat) (items : list ImportItemResponse)
  : M unit :=
  match items with
  | [] => ret tt
  | item :: rest =>
      reconcileItem w rows idIndex headings iResultEU iResultNO item ;;
      reconcile w rows idIndex headings iResultEU iResultNO rest
  end.

(** ** main *)

Record Flags : Type := {
  help : bool;
  apiKey : string;
  url : string;
  outputPath : string;
  timeout : Z;
  filePath : string     (* flag.Arg(0) *)
}.

(** [main] falls into four stretches, given here in reverse order of
    execution.  The last one: the reconciliation loop, [file.SaveAs] and
    the closing message. *)
Definition mainReconcile (fl : Flags) (w : World) (rows : list (list string))
    (c : Columns) (headings : list string) (iResultEU iResultNO : nat)
    (importResponse : ImportResponse) : M unit :=
  reconcile w rows (iID c) headings iResultEU iResultNO (responseItems importResponse) ;;
  emit (EvSaveAs (outputPath fl)) ;;
  libErr (SaveAs w (outputPath fl)) ;;
  emit (EvPrintDone (outputPath fl)).

(** [if errors.Is(err, ErrFailed) { log.Fatalln("error processing import") }
     else { log.Fatalln(err) }] on the error of [waitForProcessing]. *)
Definition checkProcessing (m : M unit) : M unit :=
  match m with
  | (t, Err ErrFailed) => (t, Err ErrProcessingImport)
  | r => r
  end.

(** Submit, poll and fetch. *)
Definition mainImport (fl : Flags) (w : World) (rows : list (list string))
    (c : Columns) (headings : list string) (iResultEU iResultNO : nat)
    (items : list ImportItemRequest) : M unit :=
  let imp := {| ImportItems := items |} in
  do importLocation <- sendImportRequest w imp (url fl) (apiKey fl);
  checkProcessing
    (waitForProcessing w (url fl) importLocation (apiKey fl) (timeout fl)) ;;
  do importResponse <- getImportResponse w (url fl) importLocation (apiKey fl);
  mainReconcile fl w rows c headings iResultEU iResultNO importResponse.

(** The result columns appended to the headings, the headings written to
    the sheet, and the mapping loop. *)
Definition mainMap (fl : Flags) (w : World) (rows : list (list string))
    (headings : list string) (c : Columns) : M unit :=
  let iResultEU := length headings in
  let headings := (headings ++ ["result EU"])%list in
  let iResultNO := length headings in
  let headings := (headings ++ ["result NO"])%list in
  emit (EvSetSheetRow 1 headings) ;;
  libErr (SetSheetRow w 1 headings) ;;
  do items <- lift (mapRows w c (drop 1 rows));
  mainImport fl w rows c headings iResultEU iResultNO items.

(** [main] from [file.GetRows] on, under the deferred [file.Close]. *)
Definition mainBody (fl : Flags) (w : World) : M unit :=
  do rows <- lib (GetRows w);
  if (length rows <? 2)%nat then fail ErrEmptyFile
  else
    do headings <- lift (index rows 0);
    do c <- lift (resolveColumns w headings);
    mainMap fl w rows headings c.

(** [defer func() { if err = file.Close(); err != nil { log.Fatalln(err) } }()]:
    the deferred call runs when [main] returns or panics, not when
    [log.Fatalln] exits the process. *)
Definition deferredClose (w : World) (m : M unit) : M unit :=
  match m with
  | (t, Err e) => (t, Err e)
  | (t, r) =>
      ((t ++ [EvFileClose])%list,
       match FileClose w with
       | Some msg => Err (ErrLibrary msg)
       | None => r
       end)
  end.

(** [func main()]; [Ok tt] is the exit status 0. *)
Definition main (fl : Flags) (w : World) : M unit :=
  if help fl then emit EvPrintHelp
  else if String.eqb (apiKey fl) "" then fail ErrMissingApiKey
  else if String.eqb (url fl) "" then fail ErrMissingURL
  else if String.eqb (filePath fl) "" then fail ErrMissingFilePath
  else
    libErr (OpenFile w (filePath fl)) ;;
    deferredClose w (mainBody fl w).

(** ** main.go: the result columns of the older [main] *)

Module MainGo.

(** [iActual := getColumnIndex(name, headings)
     if iActual == nil { headings = append(headings, name)
                         iActual = getColumnIndex(name, headings) }]:
    the headings after the statement and the pointer [iActual]. *)
Definition ensureColumn (w : World) (headings : list string) (name : string)
  : list string * option nat :=
  match getColumnIndex w headings name with
  | None =>
      let headings := (headings ++ [name])%list in
      (headings, getColumnIndex w headings name)
  | Some i => (headings, Some i)
  end.

(** The two statements of [main], "actualEU" then "actualNO": the headings
    written to the sheet and the pointers [iActualEU] and [iActualNO]. *)
Definition resultColumns (w : World) (headings : list string)
  : list string * option nat * option nat :=
  let (headings, iActualEU) := ensureColumn w headings "actualEU" in
  let (headings, iActualNO) := ensureColumn w headings "actualNO" in
  (headings, iActualEU, iActualNO).

End MainGo.

(** * The vocabulary of the properties *)

(** A text of white space only. *)
Fixpoint allSpace (s : string) : bool :=
  match s with
  | EmptyString => true
  | String c r => strings.isSpace c && allSpace r
  end.

(** The comparison of a heading with a column name, in the words of the
    specification: case-insensitive, on the heading without the white
    space around it. *)
Definition headingMatches (w : World) (name heading : string) : Prop :=
  strings.foldKey (GoUnicode w) (strings.TrimSpace (GoUnicode w) heading) =
  strings.foldKey (GoUnicode w) name.

(** [i] is the position of the first heading that matches [name]. *)
Definition firstMatch (w : World) (headings : list string) (name : string) (i : nat)
  : Prop :=
  exists h, headings !! i = Some h /\ headingMatches w name h /\
    forall j h', j < i -> headings !! j = Some h' -> ~ headingMatches w name h'.

(** The four mandatory columns, in the order [main] resolves them. *)
Definition mandatoryColumns : list string :=
  ["id"; "name"; "description"; "customs territories"].

(** The entries of a cell in the words of the specification: split at
    commas, each entry lower-cased and trimmed. *)
Definition spec_normalise (w : World) (entry : string) : string :=
  strings.TrimSpace (GoUnicode w) (strings.ToLower (GoUnicode w) entry).

Definition spec_entries (w : World) (cell : string) : list string :=
  map (spec_normalise w) (strings.Split cell ",").

Definition supported (territory : string) : bool :=
  slices_Contains allowedCustomsTerritories territory.

(** The first entry outside the supported set, if any. *)
Definition spec_firstUnsupported (w : World) (cell : string) : option string :=
  List.find (fun t => negb (supported t)) (spec_entries w cell).

(** The four mandatory cells of a row are there. *)
Definition hasMandatoryCells (c : Columns) (row : list string) : Prop :=
  is_Some (row !! iID c) /\ is_Some (row !! iName c) /\
  is_Some (row !! iDescription c) /\ is_Some (row !! iCustomsTerritories c).

Definition isHTTP (ev : event) : bool :=
  match ev with EvHTTP _ _ _ _ => true | _ => false end.

Definition isSleep (ev : event) : bool :=
  match ev with EvSleep => true | _ => false end.

Definition isSetSheetRow (ev : event) : bool :=
  match ev with EvSetSheetRow _ _ => true | _ => false end.

(** The number of events of a kind in a trace. *)
Definition count (kind : event -> bool) (t : list event) : nat :=
  length (List.filter kind t).

(** The status request of [waitForProcessing]. *)
Definition statusRequest (url importLocation apiKey : string) : event :=
  EvHTTP "GET" (url +:+ importLocation +:+ "/status") ("Bearer " +:+ apiKey) None.

(** The events of one iteration that ends in [time.Sleep]. *)
Definition statusRound (url importLocation apiKey : string) : list event :=
  [EvPrintDot; statusRequest url importLocation apiKey; EvSleep].

(** What iteration [i] decodes. *)
Definition reply (w : World) (url importLocation apiKey : string) (i : nat)
  : result (option string) :=
  snd (getStatus w url importLocation apiKey i).

(** A status response neither processed nor failed. *)
Definition nonTerminal (r : result (option string)) : Prop :=
  exists member, r = Ok member /\
    member <> Some ImportItemStatusFailed /\ member <> Some ImportItemStatusProcessed.

(** The "status" member of a decoded response, if any. *)
Definition member_of (r : result (option string)) : option string :=
  match r with Ok member => member | _ => None end.

(** The status document after [k] more responses, from iteration [i]. *)
Fixpoint observedFrom (w : World) (url importLocation apiKey : string)
    (doc : ImportStatus) (i k : nat) : ImportStatus :=
  match k with
  | O => doc
  | S k' =>
    observedFrom w url importLocation apiKey
      (updateStatus doc (member_of (reply w url importLocation apiKey i))) (S i) k'
  end.

(** The status document after the first [n] responses. *)
Definition observed (w : World) (url importLocation apiKey : string) (n : nat)
  : ImportStatus :=
  observedFrom w url importLocation apiKey {| Status := "" |} 0 n.

(** A status document on which the loop goes on. *)
Definition pending (doc : ImportStatus) : Prop :=
  Status doc <> ImportItemStatusFailed /\ Status doc <> ImportItemStatusProcessed.

(** ** Data of the examples *)

(** A runtime for examples: texts that are not ASCII are left as they
    are and fold only to themselves.  The examples are ASCII. *)
Definition mockUnicode : Unicode :=
  {| unicodeToLower := fun s => s;
     unicodeFoldKey := fun s => s;
     unicodeTrimSpace := fun s => s |}.

(** A response read and closed without error. *)
Definition response (code : nat) (location body : string) : Response :=
  {| StatusCode := code; HeaderLocation := location;
     ReadAll := (body, None); BodyClose := None |}.

(** A world for examples: the sheet holds [rows], every library call
    succeeds, the server answers the POST with [submitCode] and the
    location "/jobs/1", status request [i] with a document whose status is
    [statuses i], and the final GET with a document of [items]. *)
Definition mockWorld (rows : list (list string)) (submitCode : nat)
    (statuses : nat -> string) (items : list ImportItemResponse) : World :=
  {| GoUnicode := mockUnicode;
     ParseFloat := fun _ => inl "invalid syntax";
     Marshal := fun _ => inr "{}";
     UnmarshalStatus := fun body => inr (Some body);
     UnmarshalImport := fun _ =>
       inr {| responseID := "1"; responseItems := items;
              CreatedAt := "2024-01-01T00:00:00Z"; UpdatedAt := "2024-01-01T00:00:00Z" |};
     NewRequest := fun _ _ => None;
     OpenFile := fun _ => None;
     GetRows := inr rows;
     SetSheetRow := fun _ _ => None;
     SaveAs := fun _ => None;
     FileClose := None;
     DoSubmit := inr (response submitCode "/jobs/1" "");
     DoStatus := fun i => inr (response 200 "" (statuses i));
     DoFetch := inr (response 200 "" "{}") |}.

Definition mockItem (id : string) (tarics : list CustomsCodesResponse) : ImportItemResponse :=
  {| itemID := id; itemName := "n"; itemDescription := "d"; itemCategory := None;
     itemSubcategory := None; itemCountryOfOrigin := None; itemGrossMass := None;
     itemNetMass := None; itemWeightUnit := None; itemCustomsTerritories := [];
     Tarics := tarics; itemStatus := "processed"; itemError := None;
     Attempts := 1%Z; MaxAttempts := 3%Z;
     itemCreatedAt := "2024-01-01T00:00:00Z"; itemUpdatedAt := "2024-01-01T00:00:00Z" |}.

Definition mockFlags : Flags :=
  {| help := false; apiKey := "k"; url := "http://h"; outputPath := "result.xlsx";
     timeout := 120%Z; filePath := "in.xlsx" |}.

(** The sheet of the end-to-end scenario of the specification. *)
Definition scenarioRows : list (list string) :=
  [["id"; "name"; "description"; "customs territories"];
   ["A1"; "laptop"; "a laptop"; "EU, no"];
   ["A2"; "car"; "a car"; "no"]].

Definition scenarioColumns : Columns :=
  {| iID := 0; iName := 1; iDescription := 2; iCustomsTerritories := 3;
     iCategory := None; iSubcategory := None; iCountryOfOrigin := None;
     iGrossMass := None; iNetMass := None; iWeightUnit := None; iModel := None |}.

(** ** The run as a whole *)

(** A trace without a write to the sheet. *)
Definition noSheetWrite (t : list event) : Prop :=
  Forall (fun ev => isSetSheetRow ev = false) t.

(** The request of [getImportResponse]. *)
Definition fetchRequest (fl : Flags) (importLocation : string) : event :=
  EvHTTP "GET" (url fl +:+ importLocation) ("Bearer " +:+ apiKey fl) None.

(** The headings row with the two result columns. *)
Definition resultHeadings (headings : list string) : list string :=
  ((headings ++ ["result EU"]) ++ ["result NO"])%list.

(** [main] gets as far as the headings row of a sheet of at least two rows. *)
Definition started (fl : Flags) (w : World) (rows : list (list string))
    (headings : list string) : Prop :=
  help fl = false /\ apiKey fl <> "" /\ url fl <> "" /\ filePath fl <> "" /\
  OpenFile w (filePath fl) = None /\ GetRows w = inr rows /\
  2 <= length rows /\ rows !! 0 = Some headings.

(** Mapping, submit, poll and fetch have all succeeded; [importLocation]
    is the location the submission returned. *)
Definition priorStagesSucceeded (fl : Flags) (w : World) (importLocation : string) : Prop :=
  exists rows headings c items importResponse,
    started fl w rows headings /\
    resolveColumns w headings = Ok c /\
    mapRows w c (drop 1 rows) = Ok items /\
    snd (sendImportRequest w {| ImportItems := items |} (url fl) (apiKey fl))
      = Ok importLocation /\
    snd (waitForProcessing w (url fl) importLocation (apiKey fl) (timeout fl)) = Ok tt /\
    snd (getImportResponse w (url fl) importLocation (apiKey fl)) = Ok importResponse.

(** ** Further vocabulary *)

(** The cell of a row under an optional column. *)
Definition optionalCell (row : list string) (i : option nat) : option string :=
  match i with
  | Some i => row !! i
  | None => None
  end.

Definition isSaveAs (ev : event) : bool :=
  match ev with EvSaveAs _ => true | _ => false end.

(** The world in which status response [i] carries the status code
    [code i] instead of its own. *)
Definition withStatusCodes (code : nat -> nat) (w : World) : World :=
  {| GoUnicode := GoUnicode w;
     ParseFloat := ParseFloat w;
     Marshal := Marshal w;
     UnmarshalStatus := UnmarshalStatus w;
     UnmarshalImport := UnmarshalImport w;
     NewRequest := NewRequest w;
     OpenFile := OpenFile w;
     GetRows := GetRows w;
     SetSheetRow := SetSheetRow w;
     SaveAs := SaveAs w;
     FileClose := FileClose w;
     DoSubmit := DoSubmit w;
     DoStatus := fun i =>
       match DoStatus w i with
       | inl msg => inl msg
       | inr res => inr {| StatusCode := code i; HeaderLocation := HeaderLocation res;
                           ReadAll := ReadAll res; BodyClose := BodyClose res |}
       end;
     DoFetch := DoFetch w |}.

(** * Properties *)

(** ** Examples *)

Example prepareCustomsTerritories_ex1 (w : World) :
  prepareCustomsTerritories w "EU, no" = Ok ["eu"; "no"].
Proof. reflexivity. Qed.

Example prepareCustomsTerritories_ex2 (w : World) :
  prepareCustomsTerritories w "eu,,uk" = Err (ErrUnsupportedTerritory "").
Proof. reflexivity. Qed.

Example prepareApiKey_ex1 :
  ClientGo.prepareApiKey "Bearer abc" = "Bearer abc" /\
  ClientGo.prepareApiKey "abc" = "Bearer abc".
Proof. split; reflexivity. Qed.

Example getColumnIndex_ex1 (w : World) :
  getColumnIndex w ["Name"; " ID "; "customs Territories"] "id" = Some 1.
Proof. reflexivity. Qed.

(** ** The library model *)

Section StringFacts.
Import strings.

Lemma HasPrefix_app (p s : string) : HasPrefix (p +:+ s) p = true.
Proof.
  induction p as [|c p IH]; simpl.
  - reflexivity.
  - now rewrite Ascii.eqb_refl.
Qed.

Lemma substring_whole (s : string) : String.substring 0 (String.length s) s = s.
Proof. induction s as [|c s IH]; simpl; [reflexivity | now rewrite IH]. Qed.

Lemma TrimPrefix_app (p s : string) : TrimPrefix (p +:+ s) p = s.
Proof.
  unfold TrimPrefix. rewrite HasPrefix_app.
  induction p as [|c p IH]; simpl.
  - rewrite Nat.sub_0_r. apply substring_whole.
  - exact IH.
Qed.

Lemma TrimPrefix_bare (s p : string) : HasPrefix s p = false -> TrimPrefix s p = s.
Proof. intros H. unfold TrimPrefix. now rewrite H. Qed.

(** Folding is comparison of the folded texts. *)
Lemma EqualFold_foldKey (u : Unicode) (s t : string) :
  EqualFold u s t = true <-> foldKey u s = foldKey u t.
Proof. unfold EqualFold. apply String.eqb_eq. Qed.

(** On two ASCII texts it is Go's byte loop: the same length, and byte
    by byte the same up to the case of a letter. *)
Lemma EqualFold_ascii (u : Unicode) (s t : string) :
  isASCII s = true -> isASCII t = true ->
  (EqualFold u s t = true <->
   String.length s = String.length t /\
   forall i a b, String.get i s = Some a -> String.get i t = Some b ->
                 toLower a = toLower b).
Proof.
  intros Hs Ht. rewrite EqualFold_foldKey. unfold foldKey. rewrite Hs, Ht.
  clear Hs Ht. revert t. induction s as [|a s IH]; intros [|b t]; simpl.
  - split; [intros _; split; [reflexivity | intros i a b H; discriminate H] | reflexivity].
  - split; [discriminate | intros [H _]; discriminate H].
  - split; [discriminate | intros [H _]; discriminate H].
  - split.
    + intros [= Hab Hrest]. apply IH in Hrest as [Hlen Hall]. split; [now rewrite Hlen|].
      intros [|i] a' b' Ha Hb; simpl in Ha, Hb.
      * injection Ha as <-. injection Hb as <-. exact Hab.
      * eauto.
    + intros [Hlen Hall]. f_equal.
      * apply (Hall 0 a b); reflexivity.
      * apply IH. split; [now injection Hlen|].
        intros i a' b' Ha Hb. apply (Hall (S i) a' b'); assumption.
Qed.

Lemma isSpace_not_upper (c : ascii) : isSpace c = true -> toLower c = c.
Proof.
  destruct c as [[] [] [] [] [] [] [] []]; intros H; try reflexivity; discriminate H.
Qed.

Lemma isSpace_not_comma (c : ascii) : isSpace c = true -> Ascii.eqb c "," = false.
Proof.
  destruct c as [[] [] [] [] [] [] [] []]; intros H; try reflexivity; discriminate H.
Qed.

Lemma isSpace_ascii (c : ascii) : isSpace c = true -> (nat_of_ascii c <? 128)%nat = true.
Proof.
  destruct c as [[] [] [] [] [] [] [] []]; intros H; try reflexivity; discriminate H.
Qed.

Lemma allSpace_isASCII (s : string) : allSpace s = true -> isASCII s = true.
Proof.
  induction s as [|c s IH]; simpl; [reflexivity|].
  intros [Hc Hs]%andb_true_iff. now rewrite isSpace_ascii, IH.
Qed.

Lemma allSpace_ToLower (u : Unicode) (s : string) : allSpace s = true -> ToLower u s = s.
Proof.
  intros H. unfold ToLower. rewrite (allSpace_isASCII s H).
  induction s as [|c s IH]; simpl; [reflexivity|].
  simpl in H. apply andb_true_iff in H as [Hc Hs]. now rewrite isSpace_not_upper, IH.
Qed.

Lemma allSpace_TrimSpace (u : Unicode) (s : string) :
  allSpace s = true -> TrimSpace u s = "".
Proof.
  intros H. unfold TrimSpace, asciiTrimSpace. rewrite (allSpace_isASCII s H).
  induction s as [|c s IH]; simpl; [reflexivity|].
  simpl in H. apply andb_true_iff in H as [Hc Hs]. rewrite Hc. now apply IH.
Qed.

Lemma allSpace_Split (s : string) : allSpace s = true -> Split s "," = [s].
Proof.
  induction s as [|c s IH]; simpl; [reflexivity|].
  intros [Hc Hs]%andb_true_iff. now rewrite isSpace_not_comma, IH.
Qed.

Lemma Split_not_nil (s : string) (sep : ascii) : Split s sep <> [].
Proof.
  induction s as [|c s IH]; simpl; [discriminate|].
  destruct (Ascii.eqb c sep); [discriminate|].
  destruct (Split s sep); discriminate.
Qed.

End StringFacts.

(** ** The Authorization header of client.go *)

Lemma prepareApiKey_prefixed (k : string) :
  ClientGo.prepareApiKey ("Bearer " +:+ k) = "Bearer " +:+ k.
Proof. unfold ClientGo.prepareApiKey. now rewrite TrimPrefix_app. Qed.

Lemma prepareApiKey_bare (k : string) :
  strings.HasPrefix k "Bearer " = false ->
  ClientGo.prepareApiKey k = "Bearer " +:+ k.
Proof. intros H. unfold ClientGo.prepareApiKey. now rewrite TrimPrefix_bare. Qed.

(** The client revision embedded with [main] does not strip anything: a
    key supplied with the prefix is sent with two. *)
Example sendImportRequest_header_unstripped :
  fst (sendImportRequest (mockWorld scenarioRows 201 (fun _ => "processed") [])
         {| ImportItems := [] |} "http://h" "Bearer abc")
  = [EvHTTP "POST" "http://h/api/v1/items/imports" "Bearer Bearer abc" (Some "{}")].
Proof. reflexivity. Qed.

(** C2, as stated, fails: a key that itself starts with "Bearer " has only
    one prefix stripped, so supplying it bare and supplying it prefixed
    give different headers. *)
Lemma C2_counterexample :
  ClientGo.authorization ClientGo.Submit "Bearer x" = "Bearer x" /\
  ClientGo.authorization ClientGo.Submit ("Bearer " +:+ "Bearer x") = "Bearer Bearer x" /\
  ~ (forall (op : ClientGo.operation) (k : string),
        ClientGo.authorization op ("Bearer " +:+ k) = ClientGo.authorization op k).
Proof.
  split; [reflexivity|]. split; [reflexivity|].
  intros H. specialize (H ClientGo.Submit "Bearer x"). discriminate H.
Qed.

(** C2 (amended): for every API key [k] that does not itself begin with
    "Bearer ", the Authorization header of the Submit, Poll and Fetch
    requests of client.go is "Bearer k" whether [k] is supplied bare or
    prefixed with "Bearer "; exactly one leading "Bearer " is stripped
    before the prefix is added again. *)
Theorem C2_authorization_bare_or_prefixed :
  forall (op : ClientGo.operation) (k : string),
    strings.HasPrefix k "Bearer " = false ->
    ClientGo.authorization op k = "Bearer " +:+ k /\
    ClientGo.authorization op ("Bearer " +:+ k) = "Bearer " +:+ k /\
    ClientGo.authorization op ("Bearer " +:+ k) = ClientGo.authorization op k.
Proof.
  intros op k Hbare.
  assert (H1 : ClientGo.authorization op k = "Bearer " +:+ k)
    by (destruct op; simpl; now apply prepareApiKey_bare).
  assert (H2 : ClientGo.authorization op ("Bearer " +:+ k) = "Bearer " +:+ k)
    by (destruct op; simpl; apply prepareApiKey_prefixed).
  repeat split; congruence.
Qed.

Lemma C2_authorization_witness :
  strings.HasPrefix "s3cr3t" "Bearer " = false /\
  ClientGo.authorization ClientGo.Poll ("Bearer " +:+ "s3cr3t")
  = ClientGo.authorization ClientGo.Poll "s3cr3t".
Proof.
  split; [reflexivity|].
  apply (C2_authorization_bare_or_prefixed ClientGo.Poll "s3cr3t"). reflexivity.
Defined.

(** ** The row mapper: columns *)

Lemma EqualFold_headingMatches (w : World) (name heading : string) :
  strings.EqualFold (GoUnicode w) name (strings.TrimSpace (GoUnicode w) heading) = true <->
  headingMatches w name heading.
Proof. unfold headingMatches. rewrite EqualFold_foldKey. split; congruence. Qed.

Lemma getColumnIndex_from_Some (w : World) (k : nat) (row : list string) (name : string) (i : nat) :
  getColumnIndex_from w k row name = Some i <->
  exists j h, i = k + j /\ row !! j = Some h /\ headingMatches w name h /\
    forall j' h', j' < j -> row !! j' = Some h' -> ~ headingMatches w name h'.
Proof.
  revert k. induction row as [|h0 row IH]; intros k; simpl.
  - split; [discriminate|]. intros (j & h & _ & Hj & _). now rewrite lookup_nil in Hj.
  - destruct (strings.EqualFold (GoUnicode w) name (strings.TrimSpace (GoUnicode w) h0)) eqn:E.
    + apply EqualFold_headingMatches in E. split.
      * intros [= <-]. exists 0, h0. repeat split; [lia | assumption | lia].
      * intros (j & h & -> & Hj & Hm & Hfirst). destruct j as [|j].
        -- f_equal. lia.
        -- exfalso. apply (Hfirst 0 h0); [lia | reflexivity | assumption].
    + assert (Hn : ~ headingMatches w name h0).
      { intros Hm. apply EqualFold_headingMatches in Hm. congruence. }
      rewrite IH. split.
      * intros (j & h & -> & Hj & Hm & Hfirst). exists (S j), h.
        repeat split; [lia | assumption | assumption |].
        intros [|j'] h' Hlt Hj'; simpl in Hj'.
        -- now injection Hj' as <-.
        -- apply (Hfirst j' h'); [lia | assumption].
      * intros (j & h & -> & Hj & Hm & Hfirst). destruct j as [|j]; simpl in Hj.
        -- injection Hj as <-. contradiction.
        -- exists j, h. repeat split; [lia | assumption | assumption |].
           intros j' h' Hlt Hj'. apply (Hfirst (S j') h'); [lia | assumption].
Qed.

Lemma getColumnIndex_from_None (w : World) (k : nat) (row : list string) (name : string) :
  getColumnIndex_from w k row name = None <->
  forall h, h ∈ row -> ~ headingMatches w name h.
Proof.
  revert k. induction row as [|h0 row IH]; intros k; simpl.
  - split; [|reflexivity]. intros _ h Hh. now apply elem_of_nil in Hh.
  - destruct (strings.EqualFold (GoUnicode w) name (strings.TrimSpace (GoUnicode w) h0)) eqn:E.
    + apply EqualFold_headingMatches in E. split; [discriminate|].
      intros H. exfalso. apply (H h0); [left | assumption].
    + assert (Hn : ~ headingMatches w name h0).
      { intros Hm. apply EqualFold_headingMatches in Hm. congruence. }
      rewrite IH. split.
      * intros H h [-> | Hh]%elem_of_cons; auto.
      * intros H h Hh. apply H. now right.
Qed.

Lemma resolveColumns_missing (w : World) (headings : list string) (name : string) :
  name ∈ mandatoryColumns ->
  getColumnIndex w headings name = None ->
  (forall other, other ∈ mandatoryColumns -> other <> name ->
                 getColumnIndex w headings other <> None) ->
  resolveColumns w headings = Err (ErrMissingColumn name).
Proof.
  intros Hin Hnone Hothers. unfold resolveColumns, getMandatoryColumnIndex.
  assert (Hcase : forall other, other ∈ mandatoryColumns ->
            (other = name /\ getColumnIndex w headings other = None) \/
            (exists i, getColumnIndex w headings other = Some i)).
  { intros other Ho. destruct (string_dec other name) as [->|Hne]; [left; auto|].
    right. specialize (Hothers other Ho Hne).
    destruct (getColumnIndex w headings other); [eauto | contradiction]. }
  unfold mandatoryColumns in Hcase.
  destruct (Hcase "id") as [[<- ->]|[i1 E1]]; [repeat constructor | reflexivity |].
  destruct (Hcase "name") as [[<- ->]|[i2 E2]];
    [repeat constructor | now rewrite E1 |].
  destruct (Hcase "description") as [[<- ->]|[i3 E3]];
    [repeat constructor | now rewrite E1, E2 |].
  destruct (Hcase "customs territories") as [[<- ->]|[i4 E4]];
    [repeat constructor | now rewrite E1, E2, E3 |].
  exfalso. unfold mandatoryColumns in Hin.
  repeat (apply elem_of_cons in Hin as [-> | Hin]; [congruence|]).
  now apply elem_of_nil in Hin.
Qed.

Lemma resolveColumns_Ok (w : World) (headings : list string) (c : Columns) :
  resolveColumns w headings = Ok c ->
  getColumnIndex w headings "id" = Some (iID c) /\
  getColumnIndex w headings "name" = Some (iName c) /\
  getColumnIndex w headings "description" = Some (iDescription c) /\
  getColumnIndex w headings "customs territories" = Some (iCustomsTerritories c).
Proof.
  unfold resolveColumns, getMandatoryColumnIndex.
  destruct (getColumnIndex w headings "id"); [|discriminate].
  destruct (getColumnIndex w headings "name"); [|discriminate].
  destruct (getColumnIndex w headings "description"); [|discriminate].
  destruct (getColumnIndex w headings "customs territories"); [|discriminate].
  simpl. intros [= <-]. simpl. auto.
Qed.

(** ** The row mapper: customs territories *)

Lemma rbind_Ok_inv {A B} (r : result A) (k : A -> result B) (b : B) :
  rbind r k = Ok b -> exists a, r = Ok a /\ k a = Ok b.
Proof. destruct r; simpl; [eauto | discriminate | discriminate]. Qed.

Lemma supported_iff (t : string) : supported t = true <-> t = "eu" \/ t = "no".
Proof.
  unfold supported, slices_Contains, allowedCustomsTerritories; simpl.
  rewrite !orb_true_iff, !String.eqb_eq. intuition discriminate.
Qed.

Lemma prepareCustomsTerritories_loop_spec (w : World) (pieces acc : list string) :
  prepareCustomsTerritories_loop w pieces acc =
  match List.find (fun t => negb (supported t)) (map (spec_normalise w) pieces) with
  | Some t => Err (ErrUnsupportedTerritory t)
  | None => Ok (acc ++ map (spec_normalise w) pieces)%list
  end.
Proof.
  revert acc. induction pieces as [|p pieces IH]; intros acc.
  - simpl. now rewrite app_nil_r.
  - cbn [prepareCustomsTerritories_loop map List.find].
    change (strings.TrimSpace (GoUnicode w) (strings.ToLower (GoUnicode w) p))
      with (spec_normalise w p).
    change (slices_Contains allowedCustomsTerritories (spec_normalise w p))
      with (supported (spec_normalise w p)).
    destruct (supported (spec_normalise w p)); cbn [negb]; [|reflexivity].
    rewrite IH. destruct (List.find _ _); [reflexivity|].
    now rewrite <- app_assoc.
Qed.

Lemma prepareCustomsTerritories_spec (w : World) (cell : string) :
  prepareCustomsTerritories w cell =
  match spec_firstUnsupported w cell with
  | Some t => Err (ErrUnsupportedTerritory t)
  | None => Ok (spec_entries w cell)
  end.
Proof. unfold prepareCustomsTerritories. now rewrite prepareCustomsTerritories_loop_spec. Qed.

Lemma prepareCustomsTerritories_not_nil (w : World) (cell : string) (l : list string) :
  prepareCustomsTerritories w cell = Ok l -> l <> [].
Proof.
  rewrite prepareCustomsTerritories_spec. destruct (spec_firstUnsupported w cell); [discriminate|].
  intros [= <-]. unfold spec_entries. intros H%map_eq_nil. now apply Split_not_nil in H.
Qed.

Lemma prepareCustomsTerritories_blank (w : World) (cell : string) :
  allSpace cell = true ->
  prepareCustomsTerritories w cell = Err (ErrUnsupportedTerritory "").
Proof.
  intros H. unfold prepareCustomsTerritories. rewrite (allSpace_Split _ H). simpl.
  now rewrite (allSpace_ToLower _ _ H), (allSpace_TrimSpace _ _ H).
Qed.

Lemma mapRow_territories_Err (w : World) (c : Columns) (row : list string)
    (cell : string) (e : error) :
  hasMandatoryCells c row ->
  row !! iCustomsTerritories c = Some cell ->
  prepareCustomsTerritories w cell = Err e ->
  mapRow w c row = Err e.
Proof.
  intros ([x1 H1] & [x2 H2] & [x3 H3] & _) H4 He.
  unfold mapRow, getString, index. rewrite H1, H2, H3, H4. simpl. now rewrite He.
Qed.

Lemma mapRow_Ok_inv (w : World) (c : Columns) (row : list string) (item : ImportItemRequest) :
  mapRow w c row = Ok item ->
  exists cell, row !! iCustomsTerritories c = Some cell /\
               prepareCustomsTerritories w cell = Ok (CustomsTerritories item) /\
               row !! iID c = Some (ID item).
Proof.
  unfold mapRow. intros H.
  apply rbind_Ok_inv in H as (id & Hid & H).
  apply rbind_Ok_inv in H as (name & _ & H).
  apply rbind_Ok_inv in H as (description & _ & H).
  apply rbind_Ok_inv in H as (cell & Hcell & H).
  apply rbind_Ok_inv in H as (ts & Hts & H).
  apply rbind_Ok_inv in H as (category & _ & H).
  apply rbind_Ok_inv in H as (subcategory & _ & H).
  apply rbind_Ok_inv in H as (countryOfOrigin & _ & H).
  apply rbind_Ok_inv in H as (grossMass & _ & H).
  apply rbind_Ok_inv in H as (netMass & _ & H).
  apply rbind_Ok_inv in H as (weightUnit & _ & H).
  apply rbind_Ok_inv in H as (model & _ & H).
  injection H as <-. simpl. exists cell.
  unfold getString, index in Hid, Hcell.
  destruct (row !! iID c); [|discriminate].
  destruct (row !! iCustomsTerritories c); [|discriminate].
  injection Hid as ->. injection Hcell as ->. auto.
Qed.

Lemma mapRows_Ok_inv (w : World) (c : Columns) (rows : list (list string))
    (items : list ImportItemRequest) :
  mapRows w c rows = Ok items ->
  Forall2 (fun row item => mapRow w c row = Ok item) rows items.
Proof.
  revert items. induction rows as [|row rows IH]; intros items; simpl.
  - intros [= <-]. constructor.
  - intros H.
    apply rbind_Ok_inv in H as (item & Hitem & H).
    apply rbind_Ok_inv in H as (rest & Hrest & H).
    injection H as <-. constructor; auto.
Qed.

(** A data row whose territories cell has an unsupported entry keeps the
    mapping loop from completing. *)
Lemma mapRows_unsupported (w : World) (c : Columns) (rows : list (list string))
    (row : list string) (cell t : string) :
  row ∈ rows ->
  row !! iCustomsTerritories c = Some cell ->
  spec_firstUnsupported w cell = Some t ->
  forall items, mapRows w c rows <> Ok items.
Proof.
  intros Hin Hcell Ht items Hok.
  apply mapRows_Ok_inv in Hok.
  apply list_elem_of_lookup in Hin as [i Hi].
  destruct (Forall2_lookup_l _ _ _ _ _ Hok Hi) as (item & _ & Hitem).
  apply mapRow_Ok_inv in Hitem as (cell' & Hcell' & Hprep & _).
  rewrite Hcell in Hcell'. injection Hcell' as <-.
  rewrite prepareCustomsTerritories_spec, Ht in Hprep. discriminate.
Qed.

(** ** The reconciler: the row lookup *)

Lemma getRowByItemID_from_total (k : nat) (rows : list (list string)) (idIndex : nat)
    (itemID : string) :
  Forall (fun row => idIndex < length row) rows ->
  (exists i row, getRowByItemID_from k rows idIndex itemID = Ok (k + i, Some row) /\
       rows !! i = Some row /\ row !! idIndex = Some itemID /\
       forall j r, j < i -> rows !! j = Some r -> r !! idIndex <> Some itemID)
  \/ (getRowByItemID_from k rows idIndex itemID = Ok (0, None) /\
      forall r, r ∈ rows -> r !! idIndex <> Some itemID).
Proof.
  revert k. induction rows as [|row rows IH]; intros k Hlen; simpl.
  - right. split; [reflexivity|]. intros r Hr. now apply elem_of_nil in Hr.
  - apply Forall_cons in Hlen as [Hrow Hrows].
    unfold index. destruct (lookup_lt_is_Some_2 row idIndex Hrow) as [cell Hcell].
    rewrite Hcell. simpl. destruct (String.eqb itemID cell) eqn:E.
    + apply String.eqb_eq in E as <-. left. exists 0, row.
      rewrite Nat.add_0_r. repeat split; auto. intros j r Hj. lia.
    + apply String.eqb_neq in E.
      destruct (IH (S k) Hrows) as [(i & r & Hres & Hi & Hr & Hfirst) | [Hres Hnone]].
      * left. exists (S i), r. rewrite Hres. repeat split; auto.
        -- f_equal. f_equal. lia.
        -- intros [|j] r' Hlt Hj; simpl in Hj.
           ++ injection Hj as <-. congruence.
           ++ apply (Hfirst j r'); [lia | assumption].
      * right. split; [assumption|].
        intros r [-> | Hr]%elem_of_cons; [congruence | auto].
Qed.

Lemma getRowByItemID_from_short (k : nat) (rows : list (list string)) (idIndex : nat)
    (itemID : string) (i : nat) (row : list string) :
  rows !! i = Some row ->
  length row <= idIndex ->
  (forall j r, j < i -> rows !! j = Some r ->
     exists cell, r !! idIndex = Some cell /\ cell <> itemID) ->
  getRowByItemID_from k rows idIndex itemID = Panic IndexOutOfRange.
Proof.
  revert k i. induction rows as [|r0 rows IH]; intros k i Hi Hshort Hbefore; simpl.
  - now rewrite lookup_nil in Hi.
  - destruct i as [|i]; simpl in Hi.
    + injection Hi as ->. unfold index.
      now rewrite (lookup_ge_None_2 row idIndex Hshort).
    + destruct (Hbefore 0 r0) as (cell & Hcell & Hne); [lia | reflexivity |].
      unfold index. rewrite Hcell. simpl.
      apply String.eqb_neq in Hne. rewrite String.eqb_sym, Hne.
      apply (IH (S k) i); auto.
      intros j r Hj Hr. apply (Hbefore (S j) r); [lia | assumption].
Qed.

Lemma getRowByItemID_from_found (k : nat) (rows : list (list string)) (idIndex : nat)
    (itemID : string) (i : nat) (found : option (list string)) :
  getRowByItemID_from k rows idIndex itemID = Ok (i, found) ->
  match found with
  | Some row => exists j, i = k + j /\ rows !! j = Some row /\ row !! idIndex = Some itemID
  | None => i = 0
  end.
Proof.
  revert k. induction rows as [|r0 rows IH]; intros k; simpl.
  - intros [= <- <-]. reflexivity.
  - unfold index. destruct (r0 !! idIndex) as [cell|] eqn:Hcell; simpl; [|discriminate].
    destruct (String.eqb itemID cell) eqn:E.
    + apply String.eqb_eq in E as <-. intros [= <- <-]. exists 0. auto.
    + intros H. apply IH in H. destruct found as [row|]; [|assumption].
      destruct H as (j & -> & Hj & Hrow). exists (S j). repeat split; auto; lia.
Qed.

(** ** Computations *)

Lemma fst_bind {A B} (m : M A) (k : A -> M B) :
  fst (bind m k) =
  (fst m ++ match snd m with Ok a => fst (k a) | _ => [] end)%list.
Proof.
  destruct m as [t [a|e|p]]; simpl; try now rewrite app_nil_r.
  now destruct (k a).
Qed.

Lemma snd_bind {A B} (m : M A) (k : A -> M B) :
  snd (bind m k) =
  match snd m with Ok a => snd (k a) | Err e => Err e | Panic p => Panic p end.
Proof. destruct m as [t [a|e|p]]; simpl; try reflexivity. now destruct (k a). Qed.

Lemma snd_bind_Ok_inv {A B} (m : M A) (k : A -> M B) (b : B) :
  snd (bind m k) = Ok b -> exists a, snd m = Ok a /\ snd (k a) = Ok b.
Proof. rewrite snd_bind. destruct (snd m); [eauto | discriminate | discriminate]. Qed.

Lemma count_app (kind : event -> bool) (t u : list event) :
  count kind (t ++ u) = count kind t + count kind u.
Proof. unfold count. now rewrite List.filter_app, length_app. Qed.

(** ** Poll *)

Section Poll.
Variables (w : World) (url importLocation apiKey : string).

Lemma getStatus_Ok (i : nat) (member : option string) :
  reply w url importLocation apiKey i = Ok member ->
  getStatus w url importLocation apiKey i = ([(statusRequest url importLocation apiKey)], Ok member).
Proof.
  unfold reply, getStatus, readBody, statusRequest.
  destruct (NewRequest w _ _); simpl; [discriminate|].
  destruct (DoStatus w i) as [msg|res]; simpl; [discriminate|].
  destruct (ReadAll res) as [resBody [msg|]]; simpl; [discriminate|].
  destruct (BodyClose res); simpl; [discriminate|].
  destruct (UnmarshalStatus w resBody); simpl; [discriminate|].
  now intros [= ->].
Qed.

Lemma getStatus_trace (i : nat) :
  fst (getStatus w url importLocation apiKey i) = [] \/
  fst (getStatus w url importLocation apiKey i) = [(statusRequest url importLocation apiKey)].
Proof.
  unfold getStatus, readBody, statusRequest.
  destruct (NewRequest w _ _); simpl; [now left|]. right.
  destruct (DoStatus w i) as [msg|res]; simpl; [reflexivity|].
  destruct (ReadAll res) as [resBody [msg|]]; simpl; [reflexivity|].
  destruct (BodyClose res); simpl; [reflexivity|].
  now destruct (UnmarshalStatus w resBody).
Qed.

Lemma updateStatus_pending (doc : ImportStatus) (member : option string) :
  pending doc ->
  member <> Some ImportItemStatusFailed -> member <> Some ImportItemStatusProcessed ->
  pending (updateStatus doc member).
Proof.
  intros Hdoc Hf Hp. destruct member as [s|]; simpl; [|assumption].
  split; simpl; congruence.
Qed.

Lemma pending_eqb (doc : ImportStatus) :
  pending doc ->
  String.eqb (Status doc) ImportItemStatusFailed = false /\
  String.eqb (Status doc) ImportItemStatusProcessed = false.
Proof. intros [Hf Hp]. now rewrite !String.eqb_neq. Qed.

Lemma waitForProcessing_loop_step (ticks i : nat) (doc : ImportStatus)
    (member : option string) :
  reply w url importLocation apiKey i = Ok member ->
  pending (updateStatus doc member) ->
  waitForProcessing_loop w url importLocation apiKey (S ticks) i doc =
  let (t, r) := waitForProcessing_loop w url importLocation apiKey ticks (S i)
                  (updateStatus doc member) in
  (((statusRound url importLocation apiKey) ++ t)%list, r).
Proof.
  intros Hmember Hdoc'. destruct (pending_eqb _ Hdoc') as [Ef Ep].
  cbn [waitForProcessing_loop].
  rewrite (getStatus_Ok i member Hmember).
  unfold bind at 1 2. cbn [emit]. rewrite Ef, Ep. cbn [bind emit].
  now destruct (waitForProcessing_loop w url importLocation apiKey ticks (S i)
                  (updateStatus doc member)).
Qed.

(** [k] non-terminal responses in a row take the loop through [k]
    rounds. *)
Lemma waitForProcessing_loop_rounds (k m i : nat) (doc : ImportStatus) :
  pending doc ->
  (forall j, j < k -> nonTerminal (reply w url importLocation apiKey (i + j))) ->
  pending (observedFrom w url importLocation apiKey doc i k) /\
  fst (waitForProcessing_loop w url importLocation apiKey (k + m) i doc) =
    (concat (replicate k (statusRound url importLocation apiKey)) ++
     fst (waitForProcessing_loop w url importLocation apiKey m (i + k)
            (observedFrom w url importLocation apiKey doc i k)))%list /\
  snd (waitForProcessing_loop w url importLocation apiKey (k + m) i doc) =
    snd (waitForProcessing_loop w url importLocation apiKey m (i + k)
           (observedFrom w url importLocation apiKey doc i k)).
Proof.
  revert i doc. induction k as [|k IH]; intros i doc Hdoc Hreplies.
  - simpl. rewrite Nat.add_0_r. auto.
  - destruct (Hreplies 0) as (member & Hmember & Hf & Hp); [lia|].
    rewrite Nat.add_0_r in Hmember.
    pose proof (updateStatus_pending doc member Hdoc Hf Hp) as Hdoc'.
    destruct (pending_eqb _ Hdoc') as [Ef Ep].
    destruct (IH (S i) (updateStatus doc member) Hdoc') as (Hpend & Hfst & Hsnd).
    { intros j Hj. replace (S i + j) with (i + S j) by lia. apply Hreplies. lia. }
    replace (i + S k) with (S i + k) by lia.
    cbn [Nat.add observedFrom replicate concat].
    rewrite (waitForProcessing_loop_step (k + m) i doc member Hmember Hdoc'), Hmember.
    cbn [member_of].
    destruct (waitForProcessing_loop w url importLocation apiKey (k + m) (S i)
                (updateStatus doc member)) as [t r].
    cbn [fst snd] in *. subst t r.
    split; [exact Hpend | split; [| reflexivity]].
    now rewrite <- app_assoc.
Qed.

Lemma observedFrom_snoc (doc : ImportStatus) (i k : nat) :
  observedFrom w url importLocation apiKey doc i (S k) =
  updateStatus (observedFrom w url importLocation apiKey doc i k) (member_of (reply w url importLocation apiKey (i + k))).
Proof.
  revert doc i. induction k as [|k IH]; intros doc i.
  - simpl. now rewrite Nat.add_0_r.
  - change (observedFrom w url importLocation apiKey doc i (S (S k)))
      with (observedFrom w url importLocation apiKey (updateStatus doc (member_of (reply w url importLocation apiKey i))) (S i) (S k)).
    rewrite IH. simpl. now replace (i + S k) with (S (i + k)) by lia.
Qed.

Lemma count_rounds (k : nat) :
  count isHTTP (concat (replicate k (statusRound url importLocation apiKey))) = k /\
  count isSleep (concat (replicate k (statusRound url importLocation apiKey))) = k.
Proof.
  induction k as [|k [IH1 IH2]]; [split; reflexivity|].
  cbn [replicate concat]. rewrite !count_app, IH1, IH2. split; reflexivity.
Qed.

End Poll.

Lemma pending_initial : pending {| Status := "" |}.
Proof. split; discriminate. Qed.

(** C3: with a tick budget [timeout], when each of the status responses
    of the budget is non-terminal, [waitForProcessing] issues exactly that
    many status GET requests, each followed by a sleep of one second,
    prints the last observed status document and returns the error
    "not processed". *)
Theorem C3_poll_timeout :
  forall (w : World) (url importLocation apiKey : string) (timeout : Z),
    (forall i, i < Z.to_nat timeout ->
               nonTerminal (reply w url importLocation apiKey i)) ->
    let N := Z.to_nat timeout in
    let run := waitForProcessing w url importLocation apiKey timeout in
    snd run = Err ErrNotProcessed /\
    fst run = (EvPrintWaiting ::
               concat (replicate N (statusRound url importLocation apiKey)) ++
               [EvPrintStatus (observed w url importLocation apiKey N)])%list /\
    count isHTTP (fst run) = N /\
    count isSleep (fst run) = N /\
    (0 <= timeout -> Z.of_nat (count isHTTP (fst run)) = timeout)%Z /\
    (forall n s, N = S n -> reply w url importLocation apiKey n = Ok (Some s) ->
                 observed w url importLocation apiKey N = {| Status := s |}).
Proof.
  intros w url importLocation apiKey timeout Hreplies N run.
  destruct (waitForProcessing_loop_rounds w url importLocation apiKey N 0 0
              {| Status := "" |} pending_initial) as (_ & Hfst & Hsnd).
  { intros j Hj. apply Hreplies. exact Hj. }
  rewrite Nat.add_0_r in Hfst, Hsnd. cbn [Nat.add waitForProcessing_loop] in Hfst, Hsnd.
  fold (observed w url importLocation apiKey N) in Hfst, Hsnd.
  assert (Hrun_snd : snd run = Err ErrNotProcessed).
  { unfold run, waitForProcessing. rewrite snd_bind. cbn [emit snd]. fold N.
    rewrite Hsnd. reflexivity. }
  assert (Hrun_fst : fst run = (EvPrintWaiting ::
               concat (replicate N (statusRound url importLocation apiKey)) ++
               [EvPrintStatus (observed w url importLocation apiKey N)])%list).
  { unfold run, waitForProcessing. rewrite fst_bind. cbn [emit fst snd]. fold N.
    rewrite Hfst. reflexivity. }
  assert (Hhttp : count isHTTP (fst run) = N).
  { rewrite Hrun_fst.
    change (EvPrintWaiting :: ?t) with ([EvPrintWaiting] ++ t)%list.
    rewrite !count_app.
    rewrite (proj1 (count_rounds url importLocation apiKey N)). unfold count; simpl. lia. }
  split; [exact Hrun_snd|]. split; [exact Hrun_fst|]. split; [exact Hhttp|].
  split; [|split].
  - rewrite Hrun_fst.
    change (EvPrintWaiting :: ?t) with ([EvPrintWaiting] ++ t)%list.
    rewrite !count_app.
    rewrite (proj2 (count_rounds url importLocation apiKey N)). unfold count; simpl. lia.
  - intros Hpos. rewrite Hhttp. unfold N. lia.
  - intros n s HN Hlast. unfold observed. rewrite HN, observedFrom_snoc.
    cbn [Nat.add]. now rewrite Hlast.
Qed.

Lemma C3_poll_timeout_witness :
  let w := mockWorld [] 201 (fun i => if Nat.even i then "pending" else "processing") [] in
  snd (waitForProcessing w "http://h" "/jobs/1" "k" 3) = Err ErrNotProcessed /\
  count isHTTP (fst (waitForProcessing w "http://h" "/jobs/1" "k" 3)) = 3 /\
  observed w "http://h" "/jobs/1" "k" 3 = {| Status := "pending" |}.
Proof.
  intros w.
  assert (H : forall i, i < Z.to_nat 3 -> nonTerminal (reply w "http://h" "/jobs/1" "k" i)).
  { intros i Hi. exists (Some (if Nat.even i then "pending" else "processing")).
    split; [reflexivity|]. destruct (Nat.even i); split; discriminate. }
  destruct (C3_poll_timeout w "http://h" "/jobs/1" "k" 3 H) as (H1 & _ & H3 & _ & _ & H6).
  split; [exact H1|]. split; [exact H3|].
  apply (H6 2 "pending"); reflexivity.
Defined.

(** C5: the first status response equal to processed or failed ends the
    loop of [waitForProcessing] at once: the request that received it is
    the last event, no sleep follows it, and the result is the error
    "failed" for failed and no error for processed. *)
Theorem C5_poll_stops_at_terminal :
  forall (w : World) (url importLocation apiKey : string) (timeout : Z) (k : nat)
         (s : string),
    k < Z.to_nat timeout ->
    (forall i, i < k -> nonTerminal (reply w url importLocation apiKey i)) ->
    reply w url importLocation apiKey k = Ok (Some s) ->
    s = ImportItemStatusFailed \/ s = ImportItemStatusProcessed ->
    let run := waitForProcessing w url importLocation apiKey timeout in
    fst run = (EvPrintWaiting ::
               concat (replicate k (statusRound url importLocation apiKey)) ++
               [EvPrintDot; statusRequest url importLocation apiKey])%list /\
    count isHTTP (fst run) = S k /\
    count isSleep (fst run) = k /\
    (s = ImportItemStatusFailed -> snd run = Err ErrFailed) /\
    (s = ImportItemStatusProcessed -> snd run = Ok tt).
Proof.
  intros w url importLocation apiKey timeout k s Hk Hbefore Hreply Hs run.
  destruct (Z.to_nat timeout) as [|N] eqn:EN; [lia|].
  assert (Hsplit : S N = k + S (N - k)) by lia.
  destruct (waitForProcessing_loop_rounds w url importLocation apiKey k (S (N - k)) 0
              {| Status := "" |} pending_initial) as (_ & Hfst & Hsnd).
  { intros j Hj. apply Hbefore. exact Hj. }
  rewrite <- Hsplit in Hfst, Hsnd. cbn [Nat.add] in Hfst, Hsnd.
  set (doc := observedFrom w url importLocation apiKey {| Status := "" |} 0 k) in *.
  assert (Hlast : waitForProcessing_loop w url importLocation apiKey (S (N - k)) k doc =
                  ([EvPrintDot; statusRequest url importLocation apiKey],
                   if String.eqb s ImportItemStatusFailed then Err ErrFailed else Ok tt)).
  { cbn [waitForProcessing_loop].
    rewrite (getStatus_Ok w url importLocation apiKey k (Some s) Hreply).
    cbn [updateStatus Status]. unfold bind at 1 2. cbn [emit].
    destruct Hs as [-> | ->]; reflexivity. }
  rewrite Hlast in Hfst, Hsnd. cbn [fst snd] in Hfst, Hsnd.
  assert (Hrun_fst : fst run = (EvPrintWaiting ::
               concat (replicate k (statusRound url importLocation apiKey)) ++
               [EvPrintDot; statusRequest url importLocation apiKey])%list).
  { unfold run, waitForProcessing. rewrite fst_bind, EN. cbn [emit fst snd].
    rewrite Hfst. reflexivity. }
  assert (Hrun_snd : snd run =
            if String.eqb s ImportItemStatusFailed then Err ErrFailed else Ok tt).
  { unfold run, waitForProcessing. rewrite snd_bind, EN. cbn [emit snd]. exact Hsnd. }
  split; [exact Hrun_fst|]. rewrite Hrun_fst.
  change (EvPrintWaiting :: ?t) with ([EvPrintWaiting] ++ t)%list.
  rewrite !count_app.
  rewrite (proj1 (count_rounds url importLocation apiKey k)),
          (proj2 (count_rounds url importLocation apiKey k)).
  split; [unfold count; simpl; lia|]. split; [unfold count; simpl; lia|].
  rewrite Hrun_snd. split; intros ->; reflexivity.
Qed.

Lemma C5_poll_stops_witness :
  let w := mockWorld [] 201
             (fun i => match i with 0 => "pending" | 1 => "processed" | _ => "failed" end) [] in
  count isHTTP (fst (waitForProcessing w "http://h" "/jobs/1" "k" 120)) = 2 /\
  snd (waitForProcessing w "http://h" "/jobs/1" "k" 120) = Ok tt.
Proof.
  intros w.
  assert (Hk : 1 < Z.to_nat 120) by (vm_compute; lia).
  assert (H0 : forall i, i < 1 -> nonTerminal (reply w "http://h" "/jobs/1" "k" i)).
  { intros i Hi. assert (i = 0) as -> by lia. exists (Some "pending").
    split; [reflexivity|]. split; discriminate. }
  destruct (C5_poll_stops_at_terminal w "http://h" "/jobs/1" "k" 120 1 "processed"
              Hk H0 eq_refl (or_intror eq_refl)) as (_ & H2 & _ & _ & H5).
  split; [exact H2 | apply H5; reflexivity].
Defined.

(** ** The reconciler *)

Lemma bind_ret_l {A B} (a : A) (k : A -> M B) : bind (ret a) k = k a.
Proof. unfold bind, ret. now destruct (k a). Qed.

Lemma pad_length (row : list string) (n : nat) : n <= length (pad row n).
Proof. unfold pad. rewrite length_app, length_replicate. lia. Qed.

Lemma assign_in_range (row : list string) (i : nat) (v : string) :
  i < length row -> assign row i v = Ok (<[i := v]> row).
Proof. intros H. unfold assign. now apply Nat.ltb_lt in H as ->. Qed.

(** A matched item with an entry for each territory: the codes go into
    the two result cells of the padded row, and the row is written to the
    sheet. *)
Lemma reconcileItem_found (w : World) (rows : list (list string)) (idIndex : nat)
    (headings : list string) (iResultEU iResultNO : nat) (item : ImportItemResponse)
    (i : nat) (row : list string) (taricEU taricNO : CustomsCodesResponse) :
  getRowByItemID rows idIndex (itemID item) = Ok (i, Some row) ->
  iResultEU < length headings + 1 -> iResultNO < length headings + 1 ->
  getTaricByTerritory item customsTerritoryEU = Some taricEU ->
  getTaricByTerritory item customsTerritoryNO = Some taricNO ->
  let row' := <[iResultNO := Code taricNO]>
                (<[iResultEU := Code taricEU]> (pad row (length headings + 1))) in
  reconcileItem w rows idIndex headings iResultEU iResultNO item =
  ([EvSetSheetRow (S i) row'],
   match SetSheetRow w (S i) row' with
   | Some msg => Err (ErrLibrary msg)
   | None => Ok tt
   end).
Proof.
  intros Hrow HEU HNO HtEU HtNO row'.
  pose proof (pad_length row (length headings + 1)) as Hpad.
  unfold reconcileItem. rewrite Hrow, HtEU, HtNO.
  cbn [lift bind deref_Code app].
  rewrite assign_in_range by lia. cbn [bind app].
  rewrite assign_in_range by (rewrite length_insert; lia).
  cbn [bind app emit]. fold row'.
  unfold libErr. now destruct (SetSheetRow w (S i) row').
Qed.

(** C1 fails on the code.  For an item matched to a row, a territory
    without an entry in the item's result set makes [getTaricByTerritory]
    return the nil pointer, and [main] reads [.Code] through it: the run
    panics, no cell is written. *)
Theorem C1_missing_territory_panics :
  forall (w : World) (rows : list (list string)) (idIndex : nat)
         (headings : list string) (iResultEU iResultNO : nat)
         (item : ImportItemResponse) (i : nat) (row : list string),
    getRowByItemID rows idIndex (itemID item) = Ok (i, Some row) ->
    iResultEU < length headings + 1 ->
    getTaricByTerritory item customsTerritoryEU = None \/
    getTaricByTerritory item customsTerritoryNO = None ->
    reconcileItem w rows idIndex headings iResultEU iResultNO item =
    ([], Panic NilDereference).
Proof.
  intros w rows idIndex headings iResultEU iResultNO item i row Hrow HEU Hmissing.
  pose proof (pad_length row (length headings + 1)) as Hpad.
  unfold reconcileItem. rewrite Hrow. cbn [lift bind app].
  destruct (getTaricByTerritory item customsTerritoryEU) as [taricEU|] eqn:HtEU.
  - destruct Hmissing as [Hmissing | ->]; [discriminate|].
    cbn [deref_Code bind app]. rewrite assign_in_range by lia. reflexivity.
  - reflexivity.
Qed.

(** The item A2 of the end-to-end scenario of the specification: only
    the territory "no" has a code. *)
Lemma C1_missing_territory_witness :
  let item := mockItem "A2" [{| CustomsTerritory := "no"; Code := "8703.23" |}] in
  reconcileItem (mockWorld scenarioRows 201 (fun _ => "processed") [item])
    scenarioRows 0
    ["id"; "name"; "description"; "customs territories"; "result EU"; "result NO"]
    4 5 item
  = ([], Panic NilDereference).
Proof.
  intros item.
  apply (C1_missing_territory_panics _ scenarioRows 0 _ 4 5 item 2
           ["A2"; "car"; "a car"; "no"]).
  - reflexivity.
  - simpl. lia.
  - left. reflexivity.
Defined.

(** The whole end-to-end scenario of the specification ends in that
    panic, after the row of A1 has been written. *)
Example scenario_panics :
  main mockFlags
    (mockWorld scenarioRows 201 (fun i => match i with 0 => "pending" | _ => "processed" end)
       [mockItem "A1" [{| CustomsTerritory := "eu"; Code := "8471.30" |};
                       {| CustomsTerritory := "no"; Code := "8471.30" |}];
        mockItem "A2" [{| CustomsTerritory := "no"; Code := "8703.23" |}]])
  = ([EvSetSheetRow 1
        ["id"; "name"; "description"; "customs territories"; "result EU"; "result NO"];
      EvHTTP "POST" "http://h/api/v1/items/imports" "Bearer k" (Some "{}");
      EvPrintWaiting;
      EvPrintDot; EvHTTP "GET" "http://h/jobs/1/status" "Bearer k" None; EvSleep;
      EvPrintDot; EvHTTP "GET" "http://h/jobs/1/status" "Bearer k" None;
      EvHTTP "GET" "http://h/jobs/1" "Bearer k" None;
      EvSetSheetRow 2 ["A1"; "laptop"; "a laptop"; "EU, no"; "8471.30"; "8471.30"; ""];
      EvFileClose],
     Panic NilDereference).
Proof. vm_compute. reflexivity. Qed.

(** C9: [getRowByItemID] scans the rows from the first one, the headings
    row, and reads the cell at [idIndex] of each row it scans without a
    bounds check.  When every row has more than [idIndex] cells the lookup
    returns the first matching row or nil; a row with no more than
    [idIndex] cells reached before a match is an index out of range, in
    the lookup and in the reconciliation of the item. *)
Theorem C9_row_lookup_bounds :
  forall (rows : list (list string)) (idIndex : nat) (id : string),
    (Forall (fun row => idIndex < length row) rows ->
       (exists i row, getRowByItemID rows idIndex id = Ok (i, Some row) /\
           rows !! i = Some row /\ row !! idIndex = Some id /\
           forall j r, j < i -> rows !! j = Some r -> r !! idIndex <> Some id)
       \/ (getRowByItemID rows idIndex id = Ok (0, None) /\
           forall r, r ∈ rows -> r !! idIndex <> Some id)) /\
    (forall heading rest, rows = heading :: rest -> heading !! idIndex = Some id ->
       getRowByItemID rows idIndex id = Ok (0, Some heading)) /\
    (forall i row,
       rows !! i = Some row -> length row <= idIndex ->
       (forall j r, j < i -> rows !! j = Some r ->
          exists cell, r !! idIndex = Some cell /\ cell <> id) ->
       getRowByItemID rows idIndex id = Panic IndexOutOfRange /\
       forall w headings iResultEU iResultNO item,
         itemID item = id ->
         reconcileItem w rows idIndex headings iResultEU iResultNO item =
         ([], Panic IndexOutOfRange)).
Proof.
  intros rows idIndex id. split; [|split].
  - intros Hlen. apply (getRowByItemID_from_total 0 rows idIndex id Hlen).
  - intros heading rest -> Hcell. unfold getRowByItemID. simpl.
    unfold index. rewrite Hcell. simpl. now rewrite String.eqb_refl.
  - intros i row Hi Hshort Hbefore.
    pose proof (getRowByItemID_from_short 0 rows idIndex id i row Hi Hshort Hbefore) as Hp.
    split; [exact Hp|].
    intros w headings iResultEU iResultNO item <-.
    unfold reconcileItem, getRowByItemID. now rewrite Hp.
Qed.

(** The second data row has no cell in the id column. *)
Lemma C9_row_lookup_witness :
  getRowByItemID [["name"; "id"]; ["laptop"; "A1"]; ["car"]; ["bike"; "A3"]] 1 "A3"
  = Panic IndexOutOfRange /\
  getRowByItemID [["name"; "id"]; ["laptop"; "A1"]; ["car"]; ["bike"; "A3"]] 1 "id"
  = Ok (0, Some ["name"; "id"]).
Proof.
  pose proof (C9_row_lookup_bounds
                [["name"; "id"]; ["laptop"; "A1"]; ["car"]; ["bike"; "A3"]] 1 "A3")
    as (_ & _ & Hshort).
  pose proof (C9_row_lookup_bounds
                [["name"; "id"]; ["laptop"; "A1"]; ["car"]; ["bike"; "A3"]] 1 "id")
    as (_ & Hhead & _).
  split.
  - apply (Hshort 2 ["car"]); [reflexivity | simpl; lia |].
    intros [|[|j]] r Hj Hr; [| |lia]; injection Hr as <-.
    + exists "id". split; [reflexivity | discriminate].
    + exists "A1". split; [reflexivity | discriminate].
  - apply (Hhead ["name"; "id"] [["laptop"; "A1"]; ["car"]; ["bike"; "A3"]]); reflexivity.
Defined.

(** C10: a customs-territories cell that is empty or holds only white
    space fails the mapping of its row with the unsupported-territory
    error naming the empty string; every mapped record has at least one
    territory. *)
Theorem C10_blank_territories :
  forall (w : World) (cell : string),
    allSpace cell = true ->
    prepareCustomsTerritories w cell = Err (ErrUnsupportedTerritory "") /\
    (forall c row,
       hasMandatoryCells c row -> row !! iCustomsTerritories c = Some cell ->
       mapRow w c row = Err (ErrUnsupportedTerritory "")) /\
    (forall c row item, mapRow w c row = Ok item -> CustomsTerritories item <> []) /\
    (forall c rows items,
       mapRows w c rows = Ok items ->
       Forall (fun item => CustomsTerritories item <> []) items).
Proof.
  intros w cell Hblank.
  pose proof (prepareCustomsTerritories_blank w cell Hblank) as Herr.
  assert (Hrow : forall c row item,
             mapRow w c row = Ok item -> CustomsTerritories item <> []).
  { intros c row item (cell' & _ & Hprep & _)%mapRow_Ok_inv.
    now apply prepareCustomsTerritories_not_nil in Hprep. }
  split; [exact Herr|]. split; [|split; [exact Hrow|]].
  - intros c row Hcells Hcell. now apply (mapRow_territories_Err w c row cell).
  - intros c rows items Hok%mapRows_Ok_inv.
    induction Hok as [|row item rows items Hitem _ IH]; constructor; eauto.
Qed.

Lemma C10_blank_territories_witness :
  allSpace "  " = true /\
  prepareCustomsTerritories (mockWorld [] 201 (fun _ => "processed") []) "  "
  = Err (ErrUnsupportedTerritory "") /\
  mapRow (mockWorld [] 201 (fun _ => "processed") []) scenarioColumns
    ["A1"; "laptop"; "a laptop"; "  "] = Err (ErrUnsupportedTerritory "").
Proof.
  destruct (C10_blank_territories (mockWorld [] 201 (fun _ => "processed") []) "  " eq_refl)
    as (H1 & H2 & _).
  split; [reflexivity|]. split; [exact H1|].
  apply H2; [|reflexivity].
  repeat split; eexists; reflexivity.
Defined.

(** ** The run as a whole *)

Lemma noSheetWrite_app (t u : list event) :
  noSheetWrite t -> noSheetWrite u -> noSheetWrite (t ++ u).
Proof. unfold noSheetWrite. rewrite Forall_app. auto. Qed.

Lemma noSheetWrite_no_write (t pre post : list event) (n : nat) (row : list string) :
  noSheetWrite t -> t <> (pre ++ EvSetSheetRow n row :: post)%list.
Proof.
  intros Ht ->. unfold noSheetWrite in Ht.
  apply Forall_app in Ht as [_ Ht]. apply Forall_cons in Ht as [Ht _]. discriminate Ht.
Qed.

(** A sheet write in [net ++ rest], [net] without sheet writes, lies in
    [rest]. *)
Lemma write_after_prefix (net rest pre post : list event) (n : nat) (row : list string) :
  noSheetWrite net ->
  (net ++ rest = pre ++ EvSetSheetRow n row :: post)%list ->
  exists pre', pre = (net ++ pre')%list.
Proof.
  revert pre. induction net as [|ev net IH]; intros pre Hnet Heq.
  - exists pre. reflexivity.
  - apply Forall_cons in Hnet as [Hev Hnet]. destruct pre as [|ev' pre].
    + simpl in Heq. injection Heq as -> _. discriminate Hev.
    + simpl in Heq. injection Heq as <- Heq.
      destruct (IH pre Hnet Heq) as [pre' ->]. exists pre'. reflexivity.
Qed.

Lemma sendImportRequest_noSheetWrite (w : World) (imp : ImportRequest) (url apiKey : string) :
  noSheetWrite (fst (sendImportRequest w imp url apiKey)).
Proof.
  unfold sendImportRequest, noSheetWrite.
  destruct (Marshal w imp); simpl; [constructor|].
  destruct (NewRequest w _ _); simpl; [constructor|].
  destruct (DoSubmit w) as [msg|res]; simpl; [repeat constructor|].
  destruct (negb _); simpl; repeat constructor.
Qed.

Lemma getImportResponse_noSheetWrite (w : World) (url importLocation apiKey : string) :
  noSheetWrite (fst (getImportResponse w url importLocation apiKey)).
Proof.
  unfold getImportResponse, readBody, noSheetWrite.
  destruct (NewRequest w _ _); simpl; [constructor|].
  destruct (DoFetch w) as [msg|res]; simpl; [repeat constructor|].
  destruct (negb _); simpl; [repeat constructor|].
  destruct (ReadAll res) as [resBody [msg|]]; simpl; [repeat constructor|].
  destruct (BodyClose res); simpl; [repeat constructor|].
  destruct (UnmarshalImport w resBody); simpl; repeat constructor.
Qed.

Lemma getImportResponse_Ok (w : World) (url importLocation apiKey : string)
    (importResponse : ImportResponse) :
  snd (getImportResponse w url importLocation apiKey) = Ok importResponse ->
  fst (getImportResponse w url importLocation apiKey) =
  [EvHTTP "GET" (url +:+ importLocation) ("Bearer " +:+ apiKey) None].
Proof.
  unfold getImportResponse, readBody.
  destruct (NewRequest w _ _); simpl; [discriminate|].
  destruct (DoFetch w) as [msg|res]; simpl; [discriminate|].
  destruct (negb _); simpl; [discriminate|].
  destruct (ReadAll res) as [resBody [msg|]]; simpl; [discriminate|].
  destruct (BodyClose res); simpl; [discriminate|].
  destruct (UnmarshalImport w resBody); simpl; [discriminate | reflexivity].
Qed.

Lemma waitForProcessing_loop_noSheetWrite (w : World) (url importLocation apiKey : string)
    (ticks i : nat) (doc : ImportStatus) :
  noSheetWrite (fst (waitForProcessing_loop w url importLocation apiKey ticks i doc)).
Proof.
  revert i doc. induction ticks as [|ticks IH]; intros i doc.
  - simpl. repeat constructor.
  - cbn [waitForProcessing_loop]. rewrite fst_bind. cbn [emit fst snd].
    apply noSheetWrite_app; [repeat constructor|].
    rewrite fst_bind. apply noSheetWrite_app.
    + destruct (getStatus_trace w url importLocation apiKey i) as [-> | ->];
        repeat constructor.
    + destruct (snd (getStatus w url importLocation apiKey i)) as [member| |];
        [|constructor|constructor].
      destruct (String.eqb _ _); [constructor|].
      destruct (String.eqb _ _); [constructor|].
      rewrite fst_bind. cbn [emit fst snd].
      apply noSheetWrite_app; [repeat constructor | apply IH].
Qed.

Lemma checkProcessing_fst (m : M unit) : fst (checkProcessing m) = fst m.
Proof. destruct m as [t [[]|[]|p]]; reflexivity. Qed.

Lemma checkProcessing_Ok (m : M unit) (u : unit) :
  snd (checkProcessing m) = Ok u -> snd m = Ok tt.
Proof. destruct m as [t [[]|[]|p]]; simpl; try discriminate. reflexivity. Qed.

Lemma waitForProcessing_noSheetWrite (w : World) (url importLocation apiKey : string)
    (timeout : Z) :
  noSheetWrite (fst (checkProcessing (waitForProcessing w url importLocation apiKey timeout))).
Proof.
  rewrite checkProcessing_fst. unfold waitForProcessing. rewrite fst_bind.
  cbn [emit fst snd]. apply noSheetWrite_app; [repeat constructor|].
  apply waitForProcessing_loop_noSheetWrite.
Qed.

(** Submit, poll and fetch: either one of them fails, and the sheet is
    not written, or all succeed, and the sheet is written only after the
    request of the fetch. *)
Lemma mainImport_shape (fl : Flags) (w : World) (rows : list (list string))
    (c : Columns) (headings : list string) (iResultEU iResultNO : nat)
    (items : list ImportItemRequest) :
  let run := mainImport fl w rows c headings iResultEU iResultNO items in
  (noSheetWrite (fst run) /\ forall u, snd run <> Ok u) \/
  (exists importLocation importResponse net,
     snd (sendImportRequest w {| ImportItems := items |} (url fl) (apiKey fl))
       = Ok importLocation /\
     snd (waitForProcessing w (url fl) importLocation (apiKey fl) (timeout fl)) = Ok tt /\
     snd (getImportResponse w (url fl) importLocation (apiKey fl)) = Ok importResponse /\
     noSheetWrite net /\ fetchRequest fl importLocation ∈ net /\
     fst run = (net ++ fst (mainReconcile fl w rows c headings iResultEU iResultNO
                              importResponse))%list /\
     snd run = snd (mainReconcile fl w rows c headings iResultEU iResultNO importResponse)).
Proof.
  intros run. unfold run, mainImport.
  pose proof (sendImportRequest_noSheetWrite w {| ImportItems := items |} (url fl) (apiKey fl))
    as Hsend.
  rewrite fst_bind, snd_bind.
  destruct (snd (sendImportRequest w _ (url fl) (apiKey fl))) as [importLocation|e|p] eqn:Esend;
    [| left; split; [apply noSheetWrite_app; [exact Hsend | constructor] | discriminate]
     | left; split; [apply noSheetWrite_app; [exact Hsend | constructor] | discriminate]].
  pose proof (waitForProcessing_noSheetWrite w (url fl) importLocation (apiKey fl) (timeout fl))
    as Hwait.
  rewrite fst_bind, snd_bind.
  destruct (snd (checkProcessing _)) as [[]|e|p] eqn:Ewait;
    [| left; split; [repeat apply noSheetWrite_app; auto; constructor | discriminate]
     | left; split; [repeat apply noSheetWrite_app; auto; constructor | discriminate]].
  apply checkProcessing_Ok in Ewait.
  pose proof (getImportResponse_noSheetWrite w (url fl) importLocation (apiKey fl)) as Hget.
  rewrite fst_bind, snd_bind.
  destruct (snd (getImportResponse w (url fl) importLocation (apiKey fl)))
    as [importResponse|e|p] eqn:Eget;
    [| left; split; [repeat apply noSheetWrite_app; auto; constructor | discriminate]
     | left; split; [repeat apply noSheetWrite_app; auto; constructor | discriminate]].
  right. exists importLocation, importResponse.
  exists (fst (sendImportRequest w {| ImportItems := items |} (url fl) (apiKey fl)) ++
          fst (checkProcessing
                 (waitForProcessing w (url fl) importLocation (apiKey fl) (timeout fl))) ++
          fst (getImportResponse w (url fl) importLocation (apiKey fl)))%list.
  split; [reflexivity|]. split; [exact Ewait|]. split; [exact Eget|].
  split; [|split; [|split; [rewrite <- !app_assoc; reflexivity | reflexivity]]].
  - repeat apply noSheetWrite_app; auto.
  - rewrite (getImportResponse_Ok _ _ _ _ _ Eget). unfold fetchRequest.
    rewrite !elem_of_app. right. right. left.
Qed.

Lemma main_started (fl : Flags) (w : World) (rows : list (list string))
    (headings : list string) :
  started fl w rows headings ->
  main fl w =
  deferredClose w (do c <- lift (resolveColumns w headings); mainMap fl w rows headings c).
Proof.
  intros (Hh & Hk & Hu & Hf & Ho & Hr & Hl & H0).
  apply String.eqb_neq in Hk, Hu, Hf. apply Nat.ltb_ge in Hl.
  unfold main. rewrite Hh, Hk, Hu, Hf, Ho. cbn [libErr]. rewrite bind_ret_l.
  f_equal. unfold mainBody. rewrite Hr. cbn [lib]. rewrite bind_ret_l, Hl.
  unfold index. rewrite H0.
  exact (bind_ret_l headings
           (fun headings => do c <- lift (resolveColumns w headings);
                            mainMap fl w rows headings c)).
Qed.

(** A run that does not get to the headings row prints the help and
    exits, or ends in a fatal error; it has no other effect. *)
Lemma main_early (fl : Flags) (w : World) :
  (exists rows headings, started fl w rows headings) \/
  (help fl = true /\ main fl w = ([EvPrintHelp], Ok tt)) \/
  (exists e, main fl w = ([], Err e)).
Proof.
  unfold main. destruct (help fl) eqn:Hh; [right; left; auto|].
  destruct (String.eqb (apiKey fl) "") eqn:Hk; [right; right; eexists; reflexivity|].
  destruct (String.eqb (url fl) "") eqn:Hu; [right; right; eexists; reflexivity|].
  destruct (String.eqb (filePath fl) "") eqn:Hf; [right; right; eexists; reflexivity|].
  destruct (OpenFile w (filePath fl)) as [msg|] eqn:Ho;
    [right; right; eexists; reflexivity|].
  cbn [libErr]. rewrite bind_ret_l. unfold mainBody.
  destruct (GetRows w) as [msg|rows] eqn:Hr; [right; right; eexists; reflexivity|].
  cbn [lib]. rewrite bind_ret_l.
  destruct (length rows <? 2)%nat eqn:Hl; [right; right; eexists; reflexivity|].
  apply Nat.ltb_ge in Hl. apply String.eqb_neq in Hk, Hu, Hf.
  destruct rows as [|headings rest]; [simpl in Hl; lia|].
  left. exists (headings :: rest), headings. repeat split; auto.
Qed.

Lemma deferredClose_fst (w : World) (m : M unit) :
  fst (deferredClose w m) = fst m \/
  fst (deferredClose w m) = (fst m ++ [EvFileClose])%list.
Proof. destruct m as [t [u|e|p]]; simpl; auto. Qed.

Lemma deferredClose_Ok (w : World) (m : M unit) (u : unit) :
  snd (deferredClose w m) = Ok u -> snd m = Ok u.
Proof.
  destruct m as [t [u'|e|p]]; simpl; try discriminate;
    destruct (FileClose w); try discriminate; auto.
Qed.

Lemma deferredClose_Err (w : World) (t : list event) (e : error) :
  deferredClose w (t, Err e) = (t, Err e).
Proof. reflexivity. Qed.

Lemma deferredClose_not_Ok (w : World) (m : M unit) :
  (forall u, snd m <> Ok u) -> forall u, snd (deferredClose w m) <> Ok u.
Proof. intros H u Hu. apply deferredClose_Ok in Hu. now apply H in Hu. Qed.

(** The headings row is the first effect of the mapping stretch; the
    rest of the run follows when the write and the mapping loop succeed. *)
Lemma mainMap_eq (fl : Flags) (w : World) (rows : list (list string))
    (headings : list string) (c : Columns) :
  mainMap fl w rows headings c =
  let headings' := resultHeadings headings in
  match SetSheetRow w 1 headings', mapRows w c (drop 1 rows) with
  | Some msg, _ => ([EvSetSheetRow 1 headings'], Err (ErrLibrary msg))
  | None, Err e => ([EvSetSheetRow 1 headings'], Err e)
  | None, Panic p => ([EvSetSheetRow 1 headings'], Panic p)
  | None, Ok items =>
      let run := mainImport fl w rows c headings' (length headings)
                   (length (headings ++ ["result EU"])) items in
      (EvSetSheetRow 1 headings' :: fst run, snd run)
  end.
Proof.
  unfold mainMap. fold (resultHeadings headings). cbn zeta.
  destruct (SetSheetRow w 1 (resultHeadings headings)); [reflexivity|].
  cbn [libErr emit bind ret app].
  destruct (mapRows w c (drop 1 rows)); cbn [lift bind app]; try reflexivity.
  now destruct (mainImport _ _ _ _ _ _ _ _).
Qed.

Lemma reconcileItem_Ok_inv (w : World) (rows : list (list string)) (idIndex : nat)
    (headings : list string) (iResultEU iResultNO : nat) (item : ImportItemResponse)
    (u : unit) :
  snd (reconcileItem w rows idIndex headings iResultEU iResultNO item) = Ok u ->
  exists i row, rows !! i = Some row /\ row !! idIndex = Some (itemID item) /\
    is_Some (getTaricByTerritory item customsTerritoryEU) /\
    is_Some (getTaricByTerritory item customsTerritoryNO).
Proof.
  unfold reconcileItem. rewrite snd_bind. cbn [lift snd].
  destruct (getRowByItemID rows idIndex (itemID item)) as [[i [row|]]|e|p] eqn:Hrow;
    try discriminate.
  apply getRowByItemID_from_found in Hrow as (j & _ & Hj & Hcell).
  intros H. exists j, row. split; [exact Hj|]. split; [exact Hcell|].
  rewrite snd_bind in H. cbn [lift snd] in H.
  destruct (getTaricByTerritory item customsTerritoryEU); [|discriminate H].
  cbn [deref_Code] in H. rewrite snd_bind in H. cbn [lift snd] in H.
  destruct (assign _ _ _); try discriminate H.
  rewrite snd_bind in H. cbn [lift snd] in H.
  destruct (getTaricByTerritory item customsTerritoryNO); [|discriminate H].
  split; eexists; reflexivity.
Qed.

Lemma reconcile_Ok_inv (w : World) (rows : list (list string)) (idIndex : nat)
    (headings : list string) (iResultEU iResultNO : nat) (items : list ImportItemResponse)
    (u : unit) :
  snd (reconcile w rows idIndex headings iResultEU iResultNO items) = Ok u ->
  Forall (fun item => exists i row, rows !! i = Some row /\
                        row !! idIndex = Some (itemID item)) items.
Proof.
  induction items as [|item items IH]; [constructor|].
  cbn [reconcile]. intros ([] & Hitem & Hrest)%snd_bind_Ok_inv.
  apply reconcileItem_Ok_inv in Hitem as (i & row & Hi & Hcell & _).
  constructor; eauto.
Qed.

Lemma reconcileItem_not_found (w : World) (rows : list (list string)) (idIndex : nat)
    (headings : list string) (iResultEU iResultNO : nat) (item : ImportItemResponse) :
  Forall (fun row => idIndex < length row) rows ->
  (forall r, r ∈ rows -> r !! idIndex <> Some (itemID item)) ->
  reconcileItem w rows idIndex headings iResultEU iResultNO item =
  ([], Err (ErrRowNotFound (itemID item))).
Proof.
  intros Hlen Hnone. unfold reconcileItem.
  destruct (getRowByItemID_from_total 0 rows idIndex (itemID item) Hlen)
    as [(i & row & _ & Hi & Hcell & _) | [Hres _]].
  - exfalso. apply (Hnone row); [|exact Hcell]. apply list_elem_of_lookup. eauto.
  - unfold getRowByItemID. now rewrite Hres.
Qed.

Lemma main_resolved (fl : Flags) (w : World) (rows : list (list string))
    (headings : list string) (c : Columns) :
  started fl w rows headings ->
  resolveColumns w headings = Ok c ->
  main fl w = deferredClose w (mainMap fl w rows headings c).
Proof.
  intros Hs Hc. rewrite (main_started fl w rows headings Hs), Hc.
  f_equal. exact (bind_ret_l c (mainMap fl w rows headings)).
Qed.

Lemma isASCII_trimLeft (s : string) :
  strings.isASCII s = true -> strings.isASCII (strings.trimLeft s) = true.
Proof.
  induction s as [|c s IH]; [reflexivity|]. intros H. simpl.
  destruct (strings.isSpace c); [|exact H].
  simpl in H. apply andb_true_iff in H as [_ H]. now apply IH.
Qed.

Lemma isASCII_trimRight (s : string) :
  strings.isASCII s = true -> strings.isASCII (strings.trimRight s) = true.
Proof.
  induction s as [|c s IH]; [reflexivity|]. intros H. simpl in H.
  apply andb_true_iff in H as [Hc Hs]. specialize (IH Hs). simpl.
  destruct (strings.trimRight s) as [|c' r'].
  - destruct (strings.isSpace c); [reflexivity|]. simpl. now rewrite Hc.
  - simpl in *. now rewrite Hc, IH.
Qed.

(** On ASCII text a heading matches a name when, trimmed of the ASCII
    white space around it and lower-cased, it is the lower-cased name. *)
Lemma headingMatches_ascii (w : World) (name heading : string) :
  strings.isASCII name = true -> strings.isASCII heading = true ->
  (headingMatches w name heading <->
   strings.asciiToLower (strings.asciiTrimSpace heading) = strings.asciiToLower name).
Proof.
  intros Hn Hh. unfold headingMatches, strings.TrimSpace, strings.foldKey.
  rewrite Hh, Hn. unfold strings.asciiTrimSpace.
  now rewrite (isASCII_trimRight _ (isASCII_trimLeft _ Hh)).
Qed.

Lemma getMandatoryColumnIndex_firstMatch (w : World) (headings : list string)
    (name : string) (i : nat) :
  getMandatoryColumnIndex w headings name = Ok i <-> firstMatch w headings name i.
Proof.
  unfold getMandatoryColumnIndex, getColumnIndex, firstMatch.
  destruct (getColumnIndex_from w 0 headings name) as [i'|] eqn:E.
  - apply getColumnIndex_from_Some in E as (j & h & -> & Hj & Hm & Hfirst).
    cbn [Nat.add]. split.
    + intros [= <-]. eauto.
    + intros (h' & Hi & Hm' & Hfirst'). f_equal.
      destruct (Nat.lt_trichotomy j i) as [Hlt | [-> | Hgt]]; [|reflexivity|].
      * exfalso. now apply (Hfirst' j h).
      * exfalso. now apply (Hfirst i h').
  - split; [discriminate|]. intros (h & Hi & Hm & _). exfalso.
    rewrite getColumnIndex_from_None in E. apply (E h); [|exact Hm].
    apply list_elem_of_lookup. eauto.
Qed.

Lemma getMandatoryColumnIndex_present (w : World) (headings : list string) (name : string) :
  (exists h, h ∈ headings /\ headingMatches w name h) ->
  exists i, getMandatoryColumnIndex w headings name = Ok i.
Proof.
  intros (h & Hin & Hm). unfold getMandatoryColumnIndex, getColumnIndex.
  destruct (getColumnIndex_from w 0 headings name) as [i|] eqn:E; [eauto|].
  exfalso. rewrite getColumnIndex_from_None in E. now apply (E h).
Qed.

(** C6: a mandatory column is found at the first heading that equals its
    name once trimmed and case-folded, wherever that heading stands; a
    headings row that has the four of them is resolved to those four
    positions and the run goes on; when one of the four is absent the run
    ends with the error naming it, and has had no effect at all. *)
Theorem C6_mandatory_columns :
  forall (w : World) (headings : list string) (name : string),
    (forall i, getMandatoryColumnIndex w headings name = Ok i <->
               firstMatch w headings name i) /\
    ((exists h, h ∈ headings /\ headingMatches w name h) ->
       exists i, getMandatoryColumnIndex w headings name = Ok i) /\
    (forall h, strings.isASCII name = true -> strings.isASCII h = true ->
       (headingMatches w name h <->
        strings.asciiToLower (strings.asciiTrimSpace h) = strings.asciiToLower name)) /\
    ((forall n, n ∈ mandatoryColumns -> exists h, h ∈ headings /\ headingMatches w n h) ->
       exists c, resolveColumns w headings = Ok c /\
         firstMatch w headings "id" (iID c) /\
         firstMatch w headings "name" (iName c) /\
         firstMatch w headings "description" (iDescription c) /\
         firstMatch w headings "customs territories" (iCustomsTerritories c) /\
         forall fl rows, started fl w rows headings ->
           exists t, fst (main fl w) = EvSetSheetRow 1 (resultHeadings headings) :: t) /\
    (forall c, resolveColumns w headings = Ok c ->
       getMandatoryColumnIndex w headings "id" = Ok (iID c) /\
       getMandatoryColumnIndex w headings "name" = Ok (iName c) /\
       getMandatoryColumnIndex w headings "description" = Ok (iDescription c) /\
       getMandatoryColumnIndex w headings "customs territories"
         = Ok (iCustomsTerritories c)) /\
    (name ∈ mandatoryColumns ->
     (forall h, h ∈ headings -> ~ headingMatches w name h) ->
     (forall other, other ∈ mandatoryColumns -> other <> name ->
        exists h, h ∈ headings /\ headingMatches w other h) ->
     getMandatoryColumnIndex w headings name = Err (ErrMissingColumn name) /\
     resolveColumns w headings = Err (ErrMissingColumn name) /\
     forall fl rows, started fl w rows headings ->
       main fl w = ([], Err (ErrMissingColumn name))).
Proof.
  intros w headings name. split; [|split; [|split; [|split; [|split]]]].
  - intros i. apply getMandatoryColumnIndex_firstMatch.
  - apply getMandatoryColumnIndex_present.
  - intros h. apply headingMatches_ascii.
  - intros Hall.
    destruct (getMandatoryColumnIndex_present w headings "id") as [i1 E1];
      [apply Hall; repeat constructor|].
    destruct (getMandatoryColumnIndex_present w headings "name") as [i2 E2];
      [apply Hall; repeat constructor|].
    destruct (getMandatoryColumnIndex_present w headings "description") as [i3 E3];
      [apply Hall; repeat constructor|].
    destruct (getMandatoryColumnIndex_present w headings "customs territories") as [i4 E4];
      [apply Hall; repeat constructor|].
    assert (Hc : exists c, resolveColumns w headings = Ok c /\
                   iID c = i1 /\ iName c = i2 /\ iDescription c = i3 /\
                   iCustomsTerritories c = i4).
    { unfold resolveColumns. rewrite E1, E2, E3, E4. cbn [rbind].
      eexists. split; [reflexivity|]. cbn. auto. }
    destruct Hc as (c & Hc & <- & <- & <- & <-).
    apply getMandatoryColumnIndex_firstMatch in E1, E2, E3, E4.
    exists c. repeat (split; [assumption|]).
    intros fl rows Hs. rewrite (main_resolved fl w rows headings c Hs Hc).
    assert (Hmap : exists t, fst (mainMap fl w rows headings c) =
                             EvSetSheetRow 1 (resultHeadings headings) :: t).
    { rewrite mainMap_eq. cbn zeta.
      destruct (SetSheetRow w 1 (resultHeadings headings)); [eexists; reflexivity|].
      destruct (mapRows w c (drop 1 rows)); eexists; reflexivity. }
    destruct Hmap as [t Ht].
    destruct (deferredClose_fst w (mainMap fl w rows headings c)) as [-> | ->];
      rewrite Ht; eexists; reflexivity.
  - intros c (H1 & H2 & H3 & H4)%resolveColumns_Ok.
    unfold getMandatoryColumnIndex. now rewrite H1, H2, H3, H4.
  - intros Hin Habsent Hothers.
    assert (Hnone : getColumnIndex w headings name = None)
      by now apply getColumnIndex_from_None.
    assert (Hres : resolveColumns w headings = Err (ErrMissingColumn name)).
    { apply resolveColumns_missing; [exact Hin | exact Hnone |].
      intros other Ho Hne Hnone'. destruct (Hothers other Ho Hne) as (h & Hh & Hm).
      unfold getColumnIndex in Hnone'. rewrite getColumnIndex_from_None in Hnone'.
      now apply (Hnone' h). }
    split; [unfold getMandatoryColumnIndex; now rewrite Hnone|]. split; [exact Hres|].
    intros fl rows Hs. rewrite (main_started fl w rows headings Hs), Hres. reflexivity.
Qed.

Lemma C6_mandatory_columns_witness :
  let w := mockWorld [["id"; "name"; "customs territories"]; ["A1"; "laptop"; "eu"]] 201
             (fun _ => "processed") [] in
  getMandatoryColumnIndex w ["Customs Territories "; " NAME"; "Id"; "description"] "id"
  = Ok 2 /\
  (exists c, resolveColumns w ["Customs Territories "; " NAME"; "Id"; "description"] = Ok c /\
             iID c = 2 /\ iName c = 1 /\ iDescription c = 3 /\ iCustomsTerritories c = 0) /\
  main mockFlags w = ([], Err (ErrMissingColumn "description")).
Proof.
  intros w. split; [|split].
  - apply (C6_mandatory_columns w
             ["Customs Territories "; " NAME"; "Id"; "description"] "id").
    exists "Id". split; [reflexivity|]. split; [reflexivity|].
    intros [|[|j]] h' Hj Hh'; [| |lia]; injection Hh' as <-; discriminate.
  - destruct (C6_mandatory_columns w
                ["Customs Territories "; " NAME"; "Id"; "description"] "id")
      as (_ & _ & _ & Hall & Hok & _).
    destruct Hall as (c & Hc & _).
    { intros n Hn. unfold mandatoryColumns in Hn.
      apply elem_of_cons in Hn as [-> | Hn];
        [exists "Id"; split; [repeat constructor | reflexivity]|].
      apply elem_of_cons in Hn as [-> | Hn];
        [exists " NAME"; split; [repeat constructor | reflexivity]|].
      apply elem_of_cons in Hn as [-> | Hn];
        [exists "description"; split; [repeat constructor | reflexivity]|].
      apply elem_of_cons in Hn as [-> | Hn];
        [exists "Customs Territories "; split; [repeat constructor | reflexivity]|].
      now apply elem_of_nil in Hn. }
    exists c. split; [exact Hc|].
    destruct (Hok c Hc) as (H1 & H2 & H3 & H4).
    repeat split; [injection H1 | injection H2 | injection H3 | injection H4]; congruence.
  - destruct (C6_mandatory_columns w ["id"; "name"; "customs territories"] "description")
      as (_ & _ & _ & _ & _ & Hmissing).
    refine (proj2 (proj2 (Hmissing _ _ _)) mockFlags _ _).
    + repeat constructor.
    + intros h Hh.
      repeat (apply elem_of_cons in Hh as [-> | Hh]; [discriminate|]).
      now apply elem_of_nil in Hh.
    + intros other Ho Hne. unfold mandatoryColumns in Ho.
      apply elem_of_cons in Ho as [-> | Ho];
        [exists "id"; split; [repeat constructor | reflexivity]|].
      apply elem_of_cons in Ho as [-> | Ho];
        [exists "name"; split; [repeat constructor | reflexivity]|].
      apply elem_of_cons in Ho as [-> | Ho]; [congruence|].
      apply elem_of_cons in Ho as [-> | Ho];
        [exists "customs territories"; split; [repeat constructor | reflexivity]|].
      now apply elem_of_nil in Ho.
    + repeat split; try discriminate; reflexivity || (simpl; lia).
Defined.

Lemma find_first {A} (f : A -> bool) (l : list A) (x : A) :
  List.find f l = Some x ->
  f x = true /\ exists l1 l2, l = (l1 ++ x :: l2)%list /\ Forall (fun y => f y = false) l1.
Proof.
  induction l as [|y l IH]; simpl; [discriminate|].
  destruct (f y) eqn:E.
  - intros [= <-]. split; [exact E|]. exists [], l. split; [reflexivity | constructor].
  - intros (Hx & l1 & l2 & -> & Hl1)%IH. split; [exact Hx|].
    exists (y :: l1), l2. split; [reflexivity | constructor; assumption].
Qed.

Lemma find_exists {A} (f : A -> bool) (l : list A) (x : A) :
  x ∈ l -> f x = true -> exists y, List.find f l = Some y.
Proof.
  intros Hin Hx. destruct (List.find f l) as [y|] eqn:E; [eauto|].
  apply list_elem_of_In in Hin. pose proof (List.find_none f l E x Hin). congruence.
Qed.

Lemma mapRows_first_Err (w : World) (c : Columns) (good : list (list string))
    (row : list string) (rest : list (list string)) (e : error) :
  Forall (fun r => exists item, mapRow w c r = Ok item) good ->
  mapRow w c row = Err e ->
  mapRows w c (good ++ row :: rest) = Err e.
Proof.
  intros Hgood Hrow. induction Hgood as [|r good [item Hitem] _ IH]; simpl.
  - now rewrite Hrow.
  - now rewrite Hitem, IH.
Qed.

Lemma isASCII_toLower (c : ascii) :
  (nat_of_ascii c <? 128)%nat = true ->
  (nat_of_ascii (strings.toLower c) <? 128)%nat = true.
Proof. destruct c as [[] [] [] [] [] [] [] []]; vm_compute; congruence. Qed.

Lemma isASCII_asciiToLower (s : string) :
  strings.isASCII s = true -> strings.isASCII (strings.asciiToLower s) = true.
Proof.
  induction s as [|c s IH]; [reflexivity|]. simpl.
  intros [Hc Hs]%andb_true_iff. now rewrite (isASCII_toLower c Hc), IH.
Qed.

Lemma spec_normalise_ascii (w : World) (entry : string) :
  strings.isASCII entry = true ->
  spec_normalise w entry = strings.asciiTrimSpace (strings.asciiToLower entry).
Proof.
  intros He. unfold spec_normalise, strings.ToLower, strings.TrimSpace.
  now rewrite He, (isASCII_asciiToLower _ He).
Qed.

(** C7: the entries of a customs-territories cell are its pieces between
    commas, lower-cased and trimmed; when one of them is neither "eu" nor
    "no", [prepareCustomsTerritories] fails with the error naming the
    first such entry, and a run whose sheet has such a cell in a data row
    sends no request and does not succeed. *)
Theorem C7_unsupported_territory :
  forall (w : World) (cell : string),
    prepareCustomsTerritories w cell =
      match spec_firstUnsupported w cell with
      | Some t => Err (ErrUnsupportedTerritory t)
      | None => Ok (spec_entries w cell)
      end /\
    (forall entry, strings.isASCII entry = true ->
       spec_normalise w entry = strings.asciiTrimSpace (strings.asciiToLower entry)) /\
    ((exists t, t ∈ spec_entries w cell /\ t <> "eu" /\ t <> "no") ->
       exists t, spec_firstUnsupported w cell = Some t) /\
    (forall t, spec_firstUnsupported w cell = Some t ->
       (t <> "eu" /\ t <> "no" /\
        exists before after, spec_entries w cell = (before ++ t :: after)%list /\
          Forall (fun t' => t' = "eu" \/ t' = "no") before) /\
       (forall c row,
          hasMandatoryCells c row -> row !! iCustomsTerritories c = Some cell ->
          mapRow w c row = Err (ErrUnsupportedTerritory t)) /\
       (forall fl rows headings c row,
          started fl w rows headings -> resolveColumns w headings = Ok c ->
          row ∈ drop 1 rows -> row !! iCustomsTerritories c = Some cell ->
          count isHTTP (fst (main fl w)) = 0 /\ forall u, snd (main fl w) <> Ok u) /\
       (forall fl rows headings c good row rest,
          started fl w rows headings -> resolveColumns w headings = Ok c ->
          SetSheetRow w 1 (resultHeadings headings) = None ->
          drop 1 rows = (good ++ row :: rest)%list ->
          Forall (fun r => exists item, mapRow w c r = Ok item) good ->
          hasMandatoryCells c row -> row !! iCustomsTerritories c = Some cell ->
          main fl w = ([EvSetSheetRow 1 (resultHeadings headings)],
                       Err (ErrUnsupportedTerritory t)))).
Proof.
  intros w cell. split; [apply prepareCustomsTerritories_spec|]. split; [|split].
  - apply spec_normalise_ascii.
  - intros (t & Hin & Heu & Hno). unfold spec_firstUnsupported.
    apply (find_exists _ _ t Hin).
    destruct (supported t) eqn:E; [|reflexivity].
    apply supported_iff in E as [-> | ->]; contradiction.
  - intros t Ht.
    assert (Hrow : forall c row,
               hasMandatoryCells c row -> row !! iCustomsTerritories c = Some cell ->
               mapRow w c row = Err (ErrUnsupportedTerritory t)).
    { intros c row Hcells Hcell. apply (mapRow_territories_Err w c row cell); auto.
      now rewrite prepareCustomsTerritories_spec, Ht. }
    split; [|split; [exact Hrow|split]].
    + pose proof Ht as Hfirst. unfold spec_firstUnsupported in Hfirst.
      apply find_first in Hfirst as (Hf & before & after & Heq & Hbefore).
      apply negb_true_iff in Hf.
      split; [intros ->; discriminate Hf|]. split; [intros ->; discriminate Hf|].
      exists before, after. split; [exact Heq|].
      eapply Forall_impl; [exact Hbefore|]. intros t' Ht'. simpl in Ht'.
      apply negb_false_iff in Ht'. now apply supported_iff.
    + intros fl rows headings c row Hs Hc Hin Hcell.
      rewrite (main_resolved fl w rows headings c Hs Hc), mainMap_eq. cbn zeta.
      pose proof (mapRows_unsupported w c (drop 1 rows) row cell t Hin Hcell Ht) as Hmap.
      destruct (SetSheetRow w 1 (resultHeadings headings)) as [msg|];
        [split; [reflexivity | discriminate]|].
      destruct (mapRows w c (drop 1 rows)) as [items|e|p];
        [now contradiction (Hmap items) | split; [reflexivity | discriminate] |].
      cbn [deferredClose fst snd]. split; [reflexivity|].
      intros u. destruct (FileClose w); discriminate.
    + intros fl rows headings c good row rest Hs Hc Hset Hdrop Hgood Hcells Hcell.
      rewrite (main_resolved fl w rows headings c Hs Hc), mainMap_eq. cbn zeta.
      rewrite Hset, Hdrop.
      rewrite (mapRows_first_Err w c good row rest _ Hgood (Hrow c row Hcells Hcell)).
      reflexivity.
Qed.

Lemma C7_unsupported_territory_witness :
  let w := mockWorld [["id"; "name"; "description"; "customs territories"];
                      ["A1"; "laptop"; "a laptop"; "eu"];
                      ["A2"; "car"; "a car"; "EU, uk ,no,CH"]] 201
             (fun _ => "processed") [] in
  spec_firstUnsupported w "EU, uk ,no,CH" = Some "uk" /\
  prepareCustomsTerritories w "EU, uk ,no,CH" = Err (ErrUnsupportedTerritory "uk") /\
  main mockFlags w
  = ([EvSetSheetRow 1
        ["id"; "name"; "description"; "customs territories"; "result EU"; "result NO"]],
     Err (ErrUnsupportedTerritory "uk")).
Proof.
  intros w.
  destruct (C7_unsupported_territory w "EU, uk ,no,CH") as (Hspec & _ & _ & Hfirst).
  destruct (Hfirst "uk" eq_refl) as (_ & _ & _ & Hmain).
  split; [reflexivity|]. split; [exact Hspec|].
  apply (Hmain mockFlags
           [["id"; "name"; "description"; "customs territories"];
            ["A1"; "laptop"; "a laptop"; "eu"];
            ["A2"; "car"; "a car"; "EU, uk ,no,CH"]]
           ["id"; "name"; "description"; "customs territories"]
           scenarioColumns
           [["A1"; "laptop"; "a laptop"; "eu"]]
           ["A2"; "car"; "a car"; "EU, uk ,no,CH"] []).
  - repeat split; try discriminate; reflexivity || (simpl; lia).
  - reflexivity.
  - reflexivity.
  - reflexivity.
  - constructor; [eexists; reflexivity | constructor].
  - repeat split; eexists; reflexivity.
  - reflexivity.
Defined.

(** C4, as stated, fails: the reconciler walks the items of the response,
    not the rows of the sheet.  With an empty response the run completes,
    and the identifiers A1 and A2 of the sheet have no result. *)
Lemma C4_counterexample :
  let w := mockWorld scenarioRows 201 (fun _ => "processed") [] in
  GetRows w = inr scenarioRows /\
  snd (getImportResponse w (url mockFlags) "/jobs/1" (apiKey mockFlags)) =
    Ok {| responseID := "1"; responseItems := [];
          CreatedAt := "2024-01-01T00:00:00Z"; UpdatedAt := "2024-01-01T00:00:00Z" |} /\
  main mockFlags w =
    ([EvSetSheetRow 1
        ["id"; "name"; "description"; "customs territories"; "result EU"; "result NO"];
      EvHTTP "POST" "http://h/api/v1/items/imports" "Bearer k" (Some "{}");
      EvPrintWaiting; EvPrintDot; EvHTTP "GET" "http://h/jobs/1/status" "Bearer k" None;
      EvHTTP "GET" "http://h/jobs/1" "Bearer k" None;
      EvSaveAs "result.xlsx"; EvPrintDone "result.xlsx"; EvFileClose],
     Ok tt).
Proof. vm_compute. repeat split. Qed.

(** C4 (amended): when the run completes, every per-item result of the
    fetched response has a row of the sheet whose id cell is the item's
    identifier; a result without such a row ends the run with the fatal
    error naming the identifier.  (The converse is not checked: an input
    identifier without a result is left without result cells.) *)
Theorem C4_results_have_rows :
  forall (fl : Flags) (w : World),
    (help fl = false -> snd (main fl w) = Ok tt ->
     exists rows headings c importLocation importResponse,
       started fl w rows headings /\
       resolveColumns w headings = Ok c /\
       snd (getImportResponse w (url fl) importLocation (apiKey fl)) = Ok importResponse /\
       Forall (fun item => exists i row, rows !! i = Some row /\
                             row !! iID c = Some (itemID item))
              (responseItems importResponse)) /\
    (forall rows idIndex headings iResultEU iResultNO item rest,
       Forall (fun row => idIndex < length row) rows ->
       (forall r, r ∈ rows -> r !! idIndex <> Some (itemID item)) ->
       reconcile w rows idIndex headings iResultEU iResultNO (item :: rest) =
       ([], Err (ErrRowNotFound (itemID item)))).
Proof.
  intros fl w. split.
  - intros Hhelp Hok.
    destruct (main_early fl w) as [(rows & headings & Hs) | [[Hh _] | [e He]]];
      [| congruence | rewrite He in Hok; discriminate Hok].
    rewrite (main_started fl w rows headings Hs) in Hok.
    apply deferredClose_Ok in Hok.
    apply snd_bind_Ok_inv in Hok as (c & Hc & Hok). cbn [lift snd] in Hc.
    rewrite mainMap_eq in Hok. cbn zeta in Hok.
    destruct (SetSheetRow w 1 (resultHeadings headings)); [discriminate Hok|].
    destruct (mapRows w c (drop 1 rows)) as [items|e|p]; try discriminate Hok.
    cbn [snd] in Hok.
    destruct (mainImport_shape fl w rows c (resultHeadings headings) (length headings)
                (length (headings ++ ["result EU"])) items)
      as [[_ Hnot] | (importLocation & importResponse & net & _ & _ & Hget & _ & _ & _ & Hsnd)];
      [now apply Hnot in Hok|].
    rewrite Hsnd in Hok. unfold mainReconcile in Hok.
    apply snd_bind_Ok_inv in Hok as (u & Hrec & _).
    apply reconcile_Ok_inv in Hrec.
    exists rows, headings, c, importLocation, importResponse. auto.
  - intros rows idIndex headings iResultEU iResultNO item rest Hlen Hnone.
    cbn [reconcile]. now rewrite reconcileItem_not_found.
Qed.

Lemma C4_results_have_rows_witness :
  let w := mockWorld scenarioRows 201 (fun _ => "processed")
             [mockItem "A1" [{| CustomsTerritory := "eu"; Code := "8471.30" |};
                             {| CustomsTerritory := "no"; Code := "8471.30" |}]] in
  help mockFlags = false /\ snd (main mockFlags w) = Ok tt /\
  exists rows headings c importLocation importResponse,
    started mockFlags w rows headings /\
    resolveColumns w headings = Ok c /\
    snd (getImportResponse w (url mockFlags) importLocation (apiKey mockFlags))
      = Ok importResponse /\
    Forall (fun item => exists i row, rows !! i = Some row /\
                          row !! iID c = Some (itemID item))
           (responseItems importResponse).
Proof.
  intros w. split; [reflexivity|]. split; [reflexivity|].
  apply (proj1 (C4_results_have_rows mockFlags w)); reflexivity.
Defined.

(** C8, as stated, fails: the headings row, with the two result columns
    appended, is written to the sheet before the rows are mapped and
    before anything is sent.  Here the mapping fails on the territory
    "uk", and in a second run the submission is answered with 500; the
    headings row has been written in both. *)
Lemma C8_counterexample :
  main mockFlags
    (mockWorld [["id"; "name"; "description"; "customs territories"];
                ["A1"; "laptop"; "a laptop"; "uk"]] 201 (fun _ => "processed") [])
  = ([EvSetSheetRow 1
        ["id"; "name"; "description"; "customs territories"; "result EU"; "result NO"]],
     Err (ErrUnsupportedTerritory "uk")) /\
  main mockFlags (mockWorld scenarioRows 500 (fun _ => "processed") [])
  = ([EvSetSheetRow 1
        ["id"; "name"; "description"; "customs territories"; "result EU"; "result NO"];
      EvHTTP "POST" "http://h/api/v1/items/imports" "Bearer k" (Some "{}")],
     Err (ErrUnexpectedStatusImporting 500 "")) /\
  ~ (forall fl w pre n row post,
       fst (main fl w) = (pre ++ EvSetSheetRow n row :: post)%list ->
       exists importLocation, priorStagesSucceeded fl w importLocation).
Proof.
  split; [vm_compute; reflexivity|]. split; [vm_compute; reflexivity|].
  intros H.
  destruct (H mockFlags
              (mockWorld [["id"; "name"; "description"; "customs territories"];
                          ["A1"; "laptop"; "a laptop"; "uk"]] 201 (fun _ => "processed") [])
              [] 1
              ["id"; "name"; "description"; "customs territories"; "result EU"; "result NO"]
              [] eq_refl)
    as (importLocation & rows & headings & c & items & importResponse
        & Hs & Hc & Hmap & _).
  destruct Hs as (_ & _ & _ & _ & _ & Hrows & _ & H0).
  injection Hrows as <-. injection H0 as <-.
  injection Hc as <-. discriminate Hmap.
Qed.

(** C8 (amended): the rows of the sheet are written by the reconciler
    only, after the mapping, the submission, the polling and the fetch
    have all succeeded, and after the request of the fetch; the one write
    before that is the headings row with the two result columns, the first
    effect of a run once the mandatory columns are resolved. *)
Theorem C8_sheet_writes :
  forall (fl : Flags) (w : World) (pre post : list event) (n : nat) (row : list string),
    fst (main fl w) = (pre ++ EvSetSheetRow n row :: post)%list ->
    (pre = [] /\ n = 1 /\
     exists rows headings c,
       started fl w rows headings /\ resolveColumns w headings = Ok c /\
       row = resultHeadings headings) \/
    (exists importLocation,
       priorStagesSucceeded fl w importLocation /\
       fetchRequest fl importLocation ∈ pre).
Proof.
  intros fl w pre post n row Htrace.
  destruct (main_early fl w) as [(rows & headings & Hs) | [[_ He] | [e He]]];
    [| rewrite He in Htrace; destruct pre as [|? [|? ?]]; discriminate Htrace
     | rewrite He in Htrace; destruct pre; discriminate Htrace].
  rewrite (main_started fl w rows headings Hs) in Htrace.
  destruct (resolveColumns w headings) as [c|e|p] eqn:Hc;
    [| destruct pre; discriminate Htrace
     | cbn in Htrace; destruct pre as [|? [|? ?]]; discriminate Htrace].
  change (do c0 <- lift (Ok c); mainMap fl w rows headings c0)
    with (bind (ret c) (mainMap fl w rows headings)) in Htrace.
  rewrite bind_ret_l in Htrace.
  set (headings' := resultHeadings headings) in *.
  assert (Hhead : forall t, (EvSetSheetRow 1 headings' :: t = pre ++ EvSetSheetRow n row :: post)%list ->
            noSheetWrite t ->
            pre = [] /\ n = 1 /\ row = headings').
  { intros t Heq Ht. destruct pre as [|ev pre].
    - injection Heq as <- <- _. auto.
    - injection Heq as _ Heq. now apply noSheetWrite_no_write in Heq. }
  assert (Hclose : forall m : M unit,
            exists tail, fst (deferredClose w m) = (fst m ++ tail)%list /\ noSheetWrite tail).
  { intros m. destruct (deferredClose_fst w m) as [-> | ->].
    - exists []. rewrite app_nil_r. split; [reflexivity | constructor].
    - exists [EvFileClose]. split; [reflexivity | repeat constructor]. }
  destruct (Hclose (mainMap fl w rows headings c)) as (tail & Hfst & Htail).
  rewrite Hfst, mainMap_eq in Htrace. cbn zeta in Htrace. fold headings' in Htrace.
  assert (Honly : (EvSetSheetRow 1 headings' :: tail = pre ++ EvSetSheetRow n row :: post)%list ->
            (pre = [] /\ n = 1 /\
             exists rows headings c,
               started fl w rows headings /\ resolveColumns w headings = Ok c /\
               row = resultHeadings headings)).
  { intros Heq. destruct (Hhead tail Heq Htail) as (-> & -> & ->).
    split; [reflexivity|]. split; [reflexivity|]. exists rows, headings, c. auto. }
  destruct (SetSheetRow w 1 headings') as [msg|]; [left; now apply Honly|].
  destruct (mapRows w c (drop 1 rows)) as [items|e|p] eqn:Hmap;
    [| left; now apply Honly | left; now apply Honly].
  cbn [fst app] in Htrace.
  destruct (mainImport_shape fl w rows c headings' (length headings)
              (length (headings ++ ["result EU"])) items)
    as [[Hquiet _] | (importLocation & importResponse & net & Hsend & Hwait & Hget
                      & Hnet & Hfetch & Hrun & _)].
  - left. destruct (Hhead _ Htrace) as (-> & -> & ->);
      [now apply noSheetWrite_app|].
    split; [reflexivity|]. split; [reflexivity|]. exists rows, headings, c. auto.
  - destruct pre as [|ev pre].
    + left. injection Htrace as <- <- _.
      split; [reflexivity|]. split; [reflexivity|]. exists rows, headings, c. auto.
    + right. injection Htrace as _ Htrace. rewrite Hrun, <- app_assoc in Htrace.
      destruct (write_after_prefix _ _ _ _ _ _ Hnet Htrace) as [pre' ->].
      exists importLocation. split.
      * exists rows, headings, c, items, importResponse. auto 10.
      * apply elem_of_cons. right. apply elem_of_app. now left.
Qed.

Lemma C8_sheet_writes_witness :
  let w := mockWorld scenarioRows 201 (fun _ => "processed")
             [mockItem "A1" [{| CustomsTerritory := "eu"; Code := "8471.30" |};
                             {| CustomsTerritory := "no"; Code := "8471.30" |}]] in
  exists importLocation,
    priorStagesSucceeded mockFlags w importLocation /\
    fetchRequest mockFlags importLocation ∈
      [EvSetSheetRow 1
         ["id"; "name"; "description"; "customs territories"; "result EU"; "result NO"];
       EvHTTP "POST" "http://h/api/v1/items/imports" "Bearer k" (Some "{}");
       EvPrintWaiting; EvPrintDot; EvHTTP "GET" "http://h/jobs/1/status" "Bearer k" None;
       EvHTTP "GET" "http://h/jobs/1" "Bearer k" None].
Proof.
  intros w.
  destruct (C8_sheet_writes mockFlags w
              [EvSetSheetRow 1
                 ["id"; "name"; "description"; "customs territories"; "result EU"; "result NO"];
               EvHTTP "POST" "http://h/api/v1/items/imports" "Bearer k" (Some "{}");
               EvPrintWaiting; EvPrintDot;
               EvHTTP "GET" "http://h/jobs/1/status" "Bearer k" None;
               EvHTTP "GET" "http://h/jobs/1" "Bearer k" None]
              [EvSaveAs "result.xlsx"; EvPrintDone "result.xlsx"; EvFileClose]
              2 ["A1"; "laptop"; "a laptop"; "EU, no"; "8471.30"; "8471.30"; ""]
              eq_refl)
    as [[Hpre _] | H].
  - discriminate Hpre.
  - exact H.
Defined.

(** * Further properties *)

(** ** client.go: [prepareApiKey] *)

(** X1: the header value always starts with "Bearer ", and preparing a
    prepared key changes nothing. *)
Theorem X1_prepareApiKey_idempotent :
  forall (k : string),
    strings.HasPrefix (ClientGo.prepareApiKey k) "Bearer " = true /\
    ClientGo.prepareApiKey (ClientGo.prepareApiKey k) = ClientGo.prepareApiKey k.
Proof.
  intros k. unfold ClientGo.prepareApiKey at 1 2 3.
  split; [apply HasPrefix_app | apply prepareApiKey_prefixed].
Qed.

(** ** [getTaricByTerritory] *)

Lemma getTaricByTerritory_loop_first (tarics : list CustomsCodesResponse) (territory : string) :
  match getTaricByTerritory_loop tarics territory with
  | Some taric =>
      CustomsTerritory taric = territory /\
      exists before after, tarics = (before ++ taric :: after)%list /\
        Forall (fun t => CustomsTerritory t <> territory) before
  | None => Forall (fun t => CustomsTerritory t <> territory) tarics
  end.
Proof.
  induction tarics as [|t tarics IH]; simpl; [constructor|].
  destruct (String.eqb (CustomsTerritory t) territory) eqn:E.
  - apply String.eqb_eq in E. split; [exact E|].
    exists [], tarics. split; [reflexivity | constructor].
  - apply String.eqb_neq in E.
    destruct (getTaricByTerritory_loop tarics territory) as [taric|].
    + destruct IH as (Ht & before & after & -> & Hbefore). split; [exact Ht|].
      exists (t :: before), after. split; [reflexivity | constructor; assumption].
    + constructor; assumption.
Qed.

(** X2: [getTaricByTerritory] returns the first entry of the item for
    the territory, whatever follows it, and nil exactly when the item has
    no entry for the territory. *)
Theorem X2_getTaricByTerritory_first :
  forall (item : ImportItemResponse) (territory : string),
    (forall taric, getTaricByTerritory item territory = Some taric ->
       CustomsTerritory taric = territory /\
       exists before after, Tarics item = (before ++ taric :: after)%list /\
         Forall (fun t => CustomsTerritory t <> territory) before) /\
    (getTaricByTerritory item territory = None <->
       Forall (fun t => CustomsTerritory t <> territory) (Tarics item)).
Proof.
  intros item territory. unfold getTaricByTerritory.
  pose proof (getTaricByTerritory_loop_first (Tarics item) territory) as H.
  destruct (getTaricByTerritory_loop (Tarics item) territory) as [taric|].
  - split; [now intros ? [= <-]|]. split; [discriminate|].
    intros Hall. exfalso. destruct H as (Ht & before & after & Heq & _).
    rewrite Heq in Hall. apply Forall_app in Hall as [_ Hall].
    apply Forall_cons in Hall as [Hne _]. contradiction.
  - split; [discriminate|]. split; auto.
Qed.

(** ** [prepareCustomsTerritories] and the mapping of a row *)

Lemma prepareCustomsTerritories_Ok_entries (w : World) (cell : string) (territories : list string) :
  prepareCustomsTerritories w cell = Ok territories ->
  territories = spec_entries w cell /\ spec_firstUnsupported w cell = None.
Proof.
  rewrite prepareCustomsTerritories_spec.
  destruct (spec_firstUnsupported w cell); [discriminate|]. now intros [= <-].
Qed.

Lemma isASCII_Split (s : string) (sep : ascii) :
  strings.isASCII s = true ->
  Forall (fun piece => strings.isASCII piece = true) (strings.Split s sep).
Proof.
  induction s as [|c s IH]; [repeat constructor|]. simpl.
  intros [Hc Hs]%andb_true_iff. specialize (IH Hs).
  destruct (Ascii.eqb c sep); [constructor; [reflexivity | exact IH]|].
  destruct (strings.Split s sep) as [|h t].
  - repeat constructor. simpl. now rewrite Hc.
  - apply Forall_cons in IH as [Hh Ht]. constructor; [|exact Ht].
    simpl. now rewrite Hc, Hh.
Qed.

(** X3: on success the territories are the entries of the cell, in
    order and one per comma-separated piece (repeated entries are kept),
    and each is "eu" or "no"; for a cell of ASCII text the entries are
    its pieces with A-Z lowered and the ASCII white space around them
    removed. *)
Theorem X3_prepareCustomsTerritories_ok :
  forall (w : World) (cell : string) (territories : list string),
    prepareCustomsTerritories w cell = Ok territories ->
    territories = spec_entries w cell /\
    length territories = length (strings.Split cell ",") /\
    Forall (fun t => t = "eu" \/ t = "no") territories /\
    (strings.isASCII cell = true ->
     territories = map (fun piece => strings.asciiTrimSpace (strings.asciiToLower piece))
                       (strings.Split cell ",")).
Proof.
  intros w cell territories (-> & E)%prepareCustomsTerritories_Ok_entries.
  split; [reflexivity|].
  split; [unfold spec_entries; now rewrite length_map|]. split.
  - apply Forall_forall. intros t Ht. apply supported_iff.
    unfold spec_firstUnsupported in E. apply list_elem_of_In in Ht.
    pose proof (List.find_none _ _ E t Ht) as Hs. now apply negb_false_iff in Hs.
  - intros Hcell. unfold spec_entries.
    pose proof (isASCII_Split cell "," Hcell) as Hpieces.
    induction Hpieces as [|piece pieces Hp _ IH]; [reflexivity|].
    simpl. now rewrite (spec_normalise_ascii w piece Hp), IH.
Qed.

Lemma X3_prepareCustomsTerritories_witness :
  let w := mockWorld [] 201 (fun _ => "processed") [] in
  prepareCustomsTerritories w "EU, eu ,No" = Ok ["eu"; "eu"; "no"] /\
  length ["eu"; "eu"; "no"] = length (strings.Split "EU, eu ,No" ",").
Proof.
  intros w.
  destruct (X3_prepareCustomsTerritories_ok w "EU, eu ,No" ["eu"; "eu"; "no"] eq_refl)
    as (_ & Hlen & _).
  split; [reflexivity | exact Hlen].
Defined.

Lemma getString_Ok (row : list string) (i : nat) (s : string) :
  getString row (Some i) = Ok s -> row !! i = Some s.
Proof. unfold getString, index. destruct (row !! i); [now intros [= ->] | discriminate]. Qed.

Lemma getStringPtr_Ok (row : list string) (i : option nat) (o : option string) :
  getStringPtr row i = Ok o -> o = optionalCell row i.
Proof.
  unfold getStringPtr, index, optionalCell. destruct i as [i|]; [|now intros [= <-]].
  destruct (row !! i); [now intros [= <-] | discriminate].
Qed.

Lemma getFloatPtr_Ok (w : World) (row : list string) (i : option nat) (o : option float64) :
  getFloatPtr w row i = Ok o ->
  match o with
  | None => optionalCell row i = None \/ optionalCell row i = Some ""
  | Some f => exists v, optionalCell row i = Some v /\ v <> "" /\ ParseFloat w v = inr f
  end.
Proof.
  unfold getFloatPtr, index, optionalCell. destruct i as [i|]; [|intros [= <-]; now left].
  destruct (row !! i) as [v|]; [|discriminate]. simpl.
  destruct (String.eqb v "") eqn:E.
  - apply String.eqb_eq in E as ->. intros [= <-]. now right.
  - apply String.eqb_neq in E. destruct (ParseFloat w v) as [msg|f] eqn:Ep; [discriminate|].
    intros [= <-]. exists v. auto.
Qed.

Lemma massError_Ok (r : result (option float64)) (e : error) (o : option float64) :
  match r with Ok a => Ok a | Err _ => Err e | Panic p => Panic p end = Ok o ->
  r = Ok o.
Proof. destruct r; [auto | discriminate | discriminate]. Qed.

(** X4: the record of a mapped row.  The mandatory fields are the cells
    under their columns; an optional text field is absent exactly when its
    column is absent, and is the cell otherwise, the empty cell included;
    a mass is absent when its column is absent or its cell empty, and is
    otherwise the number parsed from the cell. *)
Theorem X4_mapRow_fields :
  forall (w : World) (c : Columns) (row : list string) (item : ImportItemRequest),
    mapRow w c row = Ok item ->
    row !! iID c = Some (ID item) /\
    row !! iName c = Some (Name item) /\
    row !! iDescription c = Some (Description item) /\
    (exists cell, row !! iCustomsTerritories c = Some cell /\
                  CustomsTerritories item = spec_entries w cell) /\
    Category item = optionalCell row (iCategory c) /\
    Subcategory item = optionalCell row (iSubcategory c) /\
    CountryOfOrigin item = optionalCell row (iCountryOfOrigin c) /\
    WeightUnit item = optionalCell row (iWeightUnit c) /\
    Model item = optionalCell row (iModel c) /\
    match GrossMass item with
    | None => optionalCell row (iGrossMass c) = None \/
              optionalCell row (iGrossMass c) = Some ""
    | Some f => exists v, optionalCell row (iGrossMass c) = Some v /\ v <> "" /\
                          ParseFloat w v = inr f
    end /\
    match NetMass item with
    | None => optionalCell row (iNetMass c) = None \/
              optionalCell row (iNetMass c) = Some ""
    | Some f => exists v, optionalCell row (iNetMass c) = Some v /\ v <> "" /\
                          ParseFloat w v = inr f
    end.
Proof.
  intros w c row item H. unfold mapRow in H.
  apply rbind_Ok_inv in H as (id & Hid%getString_Ok & H).
  apply rbind_Ok_inv in H as (name & Hname%getString_Ok & H).
  apply rbind_Ok_inv in H as (description & Hdescription%getString_Ok & H).
  apply rbind_Ok_inv in H as (cell & Hcell%getString_Ok & H).
  apply rbind_Ok_inv in H as (ts & Hts & H).
  apply rbind_Ok_inv in H as (category & Hcategory%getStringPtr_Ok & H).
  apply rbind_Ok_inv in H as (subcategory & Hsubcategory%getStringPtr_Ok & H).
  apply rbind_Ok_inv in H as (countryOfOrigin & HcountryOfOrigin%getStringPtr_Ok & H).
  apply rbind_Ok_inv in H as (grossMass & HgrossMass%massError_Ok%getFloatPtr_Ok & H).
  apply rbind_Ok_inv in H as (netMass & HnetMass%massError_Ok%getFloatPtr_Ok & H).
  apply rbind_Ok_inv in H as (weightUnit & HweightUnit%getStringPtr_Ok & H).
  apply rbind_Ok_inv in H as (model & Hmodel%getStringPtr_Ok & H).
  injection H as <-. cbn.
  apply prepareCustomsTerritories_Ok_entries in Hts as (Hts & _).
  repeat (split; [assumption || eauto|]). exact HnetMass.
Qed.

Lemma X4_mapRow_fields_witness :
  let c := {| iID := 0; iName := 1; iDescription := 2; iCustomsTerritories := 3;
              iCategory := Some 4; iSubcategory := None; iCountryOfOrigin := None;
              iGrossMass := Some 5; iNetMass := None; iWeightUnit := None;
              iModel := None |} in
  let w := mockWorld [] 201 (fun _ => "processed") [] in
  exists item,
    mapRow w c ["A1"; "laptop"; "a laptop"; "eu"; ""; ""] = Ok item /\
    Category item = Some "" /\ Subcategory item = None /\ GrossMass item = None.
Proof.
  intros c w. eexists. split; [reflexivity|].
  destruct (X4_mapRow_fields w c ["A1"; "laptop"; "a laptop"; "eu"; ""; ""] _ eq_refl)
    as (_ & _ & _ & _ & Hcat & Hsub & _).
  split; [exact Hcat|]. split; [exact Hsub | reflexivity].
Defined.

Lemma mapRows_first_Panic (w : World) (c : Columns) (good : list (list string))
    (row : list string) (rest : list (list string)) (p : panic) :
  Forall (fun r => exists item, mapRow w c r = Ok item) good ->
  mapRow w c row = Panic p ->
  mapRows w c (good ++ row :: rest) = Panic p.
Proof.
  intros Hgood Hrow. induction Hgood as [|r good [item Hitem] _ IH]; simpl.
  - now rewrite Hrow.
  - now rewrite Hitem, IH.
Qed.

(** X5: a data row that has no cell under one of the four mandatory
    columns (a row that ends before it) makes the mapping loop index out
    of range.  When it is the first row to fail, the run panics after the
    headings row is written and before any request; the deferred
    [file.Close] still runs, and its error, if any, becomes the outcome. *)
Theorem X5_short_row_panics :
  forall (w : World) (c : Columns) (row : list string),
    length row <= iID c \/ length row <= iName c \/
    length row <= iDescription c \/ length row <= iCustomsTerritories c ->
    mapRow w c row = Panic IndexOutOfRange /\
    forall fl rows headings good rest,
      started fl w rows headings -> resolveColumns w headings = Ok c ->
      SetSheetRow w 1 (resultHeadings headings) = None ->
      drop 1 rows = (good ++ row :: rest)%list ->
      Forall (fun r => exists item, mapRow w c r = Ok item) good ->
      main fl w =
      ([EvSetSheetRow 1 (resultHeadings headings); EvFileClose],
       match FileClose w with
       | Some msg => Err (ErrLibrary msg)
       | None => Panic IndexOutOfRange
       end).
Proof.
  intros w c row Hshort.
  assert (Hrow : mapRow w c row = Panic IndexOutOfRange).
  { unfold mapRow, getString, index.
    destruct (row !! iID c) eqn:E1; [|reflexivity].
    destruct (row !! iName c) eqn:E2; [|reflexivity].
    destruct (row !! iDescription c) eqn:E3; [|reflexivity].
    destruct (row !! iCustomsTerritories c) eqn:E4; [|reflexivity].
    apply lookup_lt_Some in E1, E2, E3, E4. lia. }
  split; [exact Hrow|].
  intros fl rows headings good rest Hs Hc Hset Hdrop Hgood.
  rewrite (main_resolved fl w rows headings c Hs Hc), mainMap_eq. cbn zeta.
  rewrite Hset, Hdrop, (mapRows_first_Panic w c good row rest _ Hgood Hrow).
  reflexivity.
Qed.

Lemma X5_short_row_witness :
  main mockFlags
    (mockWorld [["name"; "description"; "customs territories"; "id"];
                ["laptop"; "a laptop"; "eu"; "A1"];
                ["car"; "a car"; "no"]] 201 (fun _ => "processed") [])
  = ([EvSetSheetRow 1
        ["name"; "description"; "customs territories"; "id"; "result EU"; "result NO"];
      EvFileClose],
     Panic IndexOutOfRange).
Proof.
  set (c := {| iID := 3; iName := 0; iDescription := 1; iCustomsTerritories := 2;
               iCategory := None; iSubcategory := None; iCountryOfOrigin := None;
               iGrossMass := None; iNetMass := None; iWeightUnit := None;
               iModel := None |}).
  refine (proj2 (X5_short_row_panics _ c ["car"; "a car"; "no"] _) mockFlags
            [["name"; "description"; "customs territories"; "id"];
             ["laptop"; "a laptop"; "eu"; "A1"];
             ["car"; "a car"; "no"]]
            ["name"; "description"; "customs territories"; "id"]
            [["laptop"; "a laptop"; "eu"; "A1"]] [] _ _ _ _ _).
  - left. simpl. lia.
  - repeat split; try discriminate; reflexivity || (simpl; lia).
  - reflexivity.
  - reflexivity.
  - reflexivity.
  - constructor; [eexists; reflexivity | constructor].
Defined.

(** X6: a gross mass cell that is not empty and does not parse as a
    number ends the mapping of its row with the error naming the row's
    identifier, not the parser's error. *)
Theorem X6_invalid_gross_mass :
  forall (w : World) (c : Columns) (row : list string)
         (id cell : string) (territories : list string) (i : nat) (v msg : string),
    hasMandatoryCells c row ->
    row !! iID c = Some id ->
    row !! iCustomsTerritories c = Some cell ->
    prepareCustomsTerritories w cell = Ok territories ->
    (forall j, j ∈ [iCategory c; iSubcategory c; iCountryOfOrigin c] ->
               forall k, j = Some k -> k < length row) ->
    iGrossMass c = Some i -> row !! i = Some v -> v <> "" ->
    ParseFloat w v = inl msg ->
    mapRow w c row = Err (ErrInvalidGrossMass id).
Proof.
  intros w c row id cell territories i v msg (_ & [x2 H2] & [x3 H3] & _) H1 H4 Hts
    Hopt Hcol Hv Hne Hparse.
  assert (Hptr : forall j, j ∈ [iCategory c; iSubcategory c; iCountryOfOrigin c] ->
            exists o, getStringPtr row j = Ok o).
  { intros j Hj. unfold getStringPtr, index. destruct j as [k|]; [|eauto].
    destruct (lookup_lt_is_Some_2 row k (Hopt _ Hj k eq_refl)) as [s ->]. eauto. }
  destruct (Hptr (iCategory c)) as [o1 E1]; [repeat constructor|].
  destruct (Hptr (iSubcategory c)) as [o2 E2]; [repeat constructor|].
  destruct (Hptr (iCountryOfOrigin c)) as [o3 E3]; [repeat constructor|].
  unfold mapRow, getString, index. rewrite H1, H2, H3, H4. cbn [rbind].
  rewrite Hts. cbn [rbind]. rewrite E1, E2, E3. cbn [rbind].
  unfold getFloatPtr, index. rewrite Hcol, Hv. cbn [rbind].
  apply String.eqb_neq in Hne. now rewrite Hne, Hparse.
Qed.

Lemma X6_invalid_gross_mass_witness :
  mapRow (mockWorld [] 201 (fun _ => "processed") [])
    {| iID := 0; iName := 1; iDescription := 2; iCustomsTerritories := 3;
       iCategory := None; iSubcategory := None; iCountryOfOrigin := None;
       iGrossMass := Some 4; iNetMass := None; iWeightUnit := None; iModel := None |}
    ["A1"; "laptop"; "a laptop"; "eu"; "heavy"]
  = Err (ErrInvalidGrossMass "A1").
Proof.
  apply (X6_invalid_gross_mass _ _ _ "A1" "eu" ["eu"] 4 "heavy" "invalid syntax").
  - repeat split; eexists; reflexivity.
  - reflexivity.
  - reflexivity.
  - reflexivity.
  - intros j Hj k ->.
    repeat (apply elem_of_cons in Hj as [Hj | Hj]; [discriminate Hj|]).
    now apply elem_of_nil in Hj.
  - reflexivity.
  - reflexivity.
  - discriminate.
  - reflexivity.
Defined.

(** ** Submit and fetch *)

Local Ltac step := cbn [lib libErr ret bind emit app fail fst snd negb count isHTTP List.filter length].

(** X7: [sendImportRequest] succeeds on the status 201 and on no other:
    with the request sent and answered, the result is the Location header
    for 201 and otherwise the error carrying the status code and whatever
    was read of the body.  It sends at most one request (no retry), and
    none when the batch cannot be encoded or the request cannot be built. *)
Theorem X7_submit_outcomes :
  forall (w : World) (imp : ImportRequest) (url apiKey : string),
    let target := url +:+ "/api/v1/items/imports" in
    let run := sendImportRequest w imp url apiKey in
    (forall body res,
       Marshal w imp = inr body -> NewRequest w "POST" target = None ->
       DoSubmit w = inr res ->
       run = ([EvHTTP "POST" target ("Bearer " +:+ apiKey) (Some body)],
              if (StatusCode res =? 201)%nat then Ok (HeaderLocation res)
              else Err (ErrUnexpectedStatusImporting (StatusCode res) (fst (ReadAll res))))) /\
    (forall importLocation, snd run = Ok importLocation ->
       exists res, DoSubmit w = inr res /\ StatusCode res = 201 /\
                   importLocation = HeaderLocation res) /\
    count isHTTP (fst run) <= 1 /\
    ((exists msg, Marshal w imp = inl msg) \/
     (exists msg, NewRequest w "POST" target = Some msg) -> fst run = []).
Proof.
  intros w imp url apiKey target run. unfold run, sendImportRequest. fold target.
  split; [|split; [|split]].
  - intros body res -> -> ->. cbn [lib libErr ret bind emit app fail].
    unfold StatusCreated. rewrite Nat.eqb_sym.
    now destruct (StatusCode res =? 201)%nat.
  - intros importLocation.
    destruct (Marshal w imp); step; [discriminate|].
    destruct (NewRequest w "POST" target); step; [discriminate|].
    destruct (DoSubmit w) as [msg|res]; step; [discriminate|].
    unfold StatusCreated.
    destruct (201 =? StatusCode res)%nat eqn:E; step; [|discriminate].
    apply Nat.eqb_eq in E. intros [= <-]. eauto.
  - destruct (Marshal w imp); step; [lia|].
    destruct (NewRequest w "POST" target); step; [lia|].
    destruct (DoSubmit w) as [msg|res]; step; [lia|].
    destruct (negb _); step; lia.
  - intros [[msg ->] | [msg Hreq]]; [reflexivity|].
    destruct (Marshal w imp); [reflexivity|]. cbn [lib ret bind]. now rewrite Hreq.
Qed.

Lemma X7_submit_witness :
  sendImportRequest (mockWorld [] 200 (fun _ => "processed") []) {| ImportItems := [] |}
    "http://h" "k"
  = ([EvHTTP "POST" "http://h/api/v1/items/imports" "Bearer k" (Some "{}")],
     Err (ErrUnexpectedStatusImporting 200 "")).
Proof.
  apply (proj1 (X7_submit_outcomes (mockWorld [] 200 (fun _ => "processed") [])
                  {| ImportItems := [] |} "http://h" "k")
           "{}" (response 200 "/jobs/1" "")); reflexivity.
Defined.

(** X8: [getImportResponse] decodes the body of a 200 response only: any
    other status is the error carrying the status code and the body read,
    whatever the body decodes to; a result comes from a 200 response read
    to its end, closed and decoded without error.  One GET to the
    location, at most. *)
Theorem X8_fetch_outcomes :
  forall (w : World) (url importLocation apiKey : string),
    let run := getImportResponse w url importLocation apiKey in
    (forall res,
       NewRequest w "GET" (url +:+ importLocation) = None -> DoFetch w = inr res ->
       StatusCode res <> 200 ->
       run = ([EvHTTP "GET" (url +:+ importLocation) ("Bearer " +:+ apiKey) None],
              Err (ErrUnexpectedStatusGetting (StatusCode res) (fst (ReadAll res))))) /\
    (forall importResponse, snd run = Ok importResponse ->
       exists res resBody,
         DoFetch w = inr res /\ StatusCode res = 200 /\
         ReadAll res = (resBody, None) /\ BodyClose res = None /\
         UnmarshalImport w resBody = inr importResponse) /\
    count isHTTP (fst run) <= 1.
Proof.
  intros w url importLocation apiKey run. unfold run, getImportResponse, readBody.
  split; [|split].
  - intros res -> -> Hcode. cbn [lib libErr ret bind emit app fail].
    unfold StatusOK. apply Nat.eqb_neq in Hcode. rewrite Nat.eqb_sym in Hcode.
    now rewrite Hcode.
  - intros importResponse.
    destruct (NewRequest w "GET" _); step; [discriminate|].
    destruct (DoFetch w) as [msg|res]; step; [discriminate|].
    unfold StatusOK. destruct (200 =? StatusCode res)%nat eqn:E; step; [|discriminate].
    apply Nat.eqb_eq in E.
    destruct (ReadAll res) as [resBody [msg|]] eqn:Er; step; [discriminate|].
    destruct (BodyClose res) eqn:Ec; step; [discriminate|].
    destruct (UnmarshalImport w resBody) eqn:Eu; step; [discriminate|].
    intros [= <-]. exists res, resBody. auto.
  - destruct (NewRequest w "GET" _); step; [lia|].
    destruct (DoFetch w) as [msg|res]; step; [lia|].
    destruct (negb _); step; [lia|].
    destruct (ReadAll res) as [resBody [msg|]]; step; [lia|].
    destruct (BodyClose res); step; [lia|].
    destruct (UnmarshalImport w resBody); step; lia.
Qed.

Lemma X8_fetch_witness :
  let w := {| GoUnicode := mockUnicode;
              ParseFloat := fun _ => inl "invalid syntax";
              Marshal := fun _ => inr "{}";
              UnmarshalStatus := fun body => inr (Some body);
              UnmarshalImport := fun _ => inl "unexpected end of JSON input";
              NewRequest := fun _ _ => None;
              OpenFile := fun _ => None;
              GetRows := inr [];
              SetSheetRow := fun _ _ => None;
              SaveAs := fun _ => None;
              FileClose := None;
              DoSubmit := inl "connection refused";
              DoStatus := fun _ => inl "connection refused";
              DoFetch := inr (response 404 "" "not found") |} in
  getImportResponse w "http://h" "/jobs/1" "k"
  = ([EvHTTP "GET" "http://h/jobs/1" "Bearer k" None],
     Err (ErrUnexpectedStatusGetting 404 "not found")).
Proof.
  intros w.
  apply (proj1 (X8_fetch_outcomes w "http://h" "/jobs/1" "k") (response 404 "" "not found"));
    [reflexivity | reflexivity | discriminate].
Defined.

(** ** Poll *)

Lemma getStatus_cases (w : World) (url importLocation apiKey : string) (i : nat) :
  (exists msg, getStatus w url importLocation apiKey i = ([], Err (ErrLibrary msg))) \/
  (exists msg, getStatus w url importLocation apiKey i =
               ([statusRequest url importLocation apiKey], Err (ErrLibrary msg))) \/
  (exists member, getStatus w url importLocation apiKey i =
                  ([statusRequest url importLocation apiKey], Ok member)).
Proof.
  unfold getStatus, readBody, statusRequest.
  destruct (NewRequest w _ _); step; [left; eauto|]. right.
  destruct (DoStatus w i) as [msg|res]; step; [left; eauto|].
  destruct (ReadAll res) as [resBody [msg|]]; step; [left; eauto|].
  destruct (BodyClose res); step; [left; eauto|].
  destruct (UnmarshalStatus w resBody); step; [left; eauto | right; eauto].
Qed.

Lemma waitForProcessing_loop_S (w : World) (url importLocation apiKey : string)
    (ticks i : nat) (doc : ImportStatus) :
  (exists e, waitForProcessing_loop w url importLocation apiKey (S ticks) i doc =
             ([EvPrintDot], Err e)) \/
  (exists r, waitForProcessing_loop w url importLocation apiKey (S ticks) i doc =
             ([EvPrintDot; statusRequest url importLocation apiKey], r)) \/
  waitForProcessing_loop w url importLocation apiKey (S ticks) i doc =
    (let (t, r) := waitForProcessing_loop w url importLocation apiKey ticks (S i)
                     (updateStatus doc (member_of (reply w url importLocation apiKey i))) in
     ((statusRound url importLocation apiKey ++ t)%list, r)).
Proof.
  remember (waitForProcessing_loop w url importLocation apiKey (S ticks) i doc) as L eqn:HL.
  unfold reply. cbn [waitForProcessing_loop] in HL.
  destruct (getStatus_cases w url importLocation apiKey i)
    as [[msg E] | [[msg E] | [member E]]]; rewrite E in HL |- *.
  - left. eexists. exact HL.
  - right. left. eexists. exact HL.
  - cbn [snd member_of]. unfold bind at 1 2 in HL. cbn [emit] in HL.
    destruct (String.eqb (Status (updateStatus doc member)) ImportItemStatusFailed);
      [right; left; eexists; exact HL|].
    destruct (String.eqb (Status (updateStatus doc member)) ImportItemStatusProcessed);
      [right; left; eexists; exact HL|].
    right. right. cbn [bind emit] in HL. rewrite HL.
    now destruct (waitForProcessing_loop w url importLocation apiKey ticks (S i)
                    (updateStatus doc member)).
Qed.

Lemma waitForProcessing_loop_bounds (w : World) (url importLocation apiKey : string)
    (ticks i : nat) (doc : ImportStatus) :
  let t := fst (waitForProcessing_loop w url importLocation apiKey ticks i doc) in
  count isHTTP t <= ticks /\ count isSleep t <= count isHTTP t.
Proof.
  revert i doc. induction ticks as [|ticks IH]; intros i doc t; [cbn; lia|].
  specialize (IH (S i) (updateStatus doc (member_of (reply w url importLocation apiKey i)))).
  cbn zeta in IH. unfold t.
  destruct (waitForProcessing_loop_S w url importLocation apiKey ticks i doc)
    as [[e ->] | [[r ->] | ->]]; [cbn; clear; lia | cbn; clear; lia |].
  destruct (waitForProcessing_loop w url importLocation apiKey ticks (S i) _) as [t' r'].
  cbn [fst] in *. rewrite !count_app. unfold statusRound, statusRequest.
  unfold count at 1 3 5. cbn [List.filter isHTTP isSleep length]. lia.
Qed.

(** X9: whatever the server answers, [waitForProcessing] sends no more
    status requests than the tick budget and never sleeps more often than
    it has sent requests; with a budget of zero or less it sends nothing
    and reports "not processed" at once, printing the empty status. *)
Theorem X9_poll_bounded :
  forall (w : World) (url importLocation apiKey : string) (timeout : Z),
    let run := waitForProcessing w url importLocation apiKey timeout in
    count isHTTP (fst run) <= Z.to_nat timeout /\
    count isSleep (fst run) <= count isHTTP (fst run) /\
    ((timeout <= 0)%Z ->
       run = ([EvPrintWaiting; EvPrintStatus {| Status := "" |}], Err ErrNotProcessed)).
Proof.
  intros w url importLocation apiKey timeout run. unfold run, waitForProcessing.
  pose proof (waitForProcessing_loop_bounds w url importLocation apiKey
                (Z.to_nat timeout) 0 {| Status := "" |}) as Hb. cbn zeta in Hb.
  split; [|split].
  - rewrite fst_bind. cbn [emit fst snd]. rewrite count_app. unfold count at 1. cbn. lia.
  - rewrite fst_bind. cbn [emit fst snd]. rewrite !count_app. unfold count at 1 3. cbn. lia.
  - intros Hle. replace (Z.to_nat timeout) with 0 by lia. reflexivity.
Qed.

Lemma X9_poll_bounded_witness :
  waitForProcessing (mockWorld [] 201 (fun _ => "pending") []) "http://h" "/jobs/1" "k" (-5)
  = ([EvPrintWaiting; EvPrintStatus {| Status := "" |}], Err ErrNotProcessed).
Proof.
  apply (X9_poll_bounded (mockWorld [] 201 (fun _ => "pending") [])
           "http://h" "/jobs/1" "k" (-5)%Z). lia.
Defined.

Lemma waitForProcessing_loop_outcome (w : World) (url importLocation apiKey : string)
    (ticks i : nat) (doc : ImportStatus) :
  pending doc ->
  let r := snd (waitForProcessing_loop w url importLocation apiKey ticks i doc) in
  (r = Err ErrNotProcessed /\
   forall j, j < ticks -> nonTerminal (reply w url importLocation apiKey (i + j))) \/
  (exists k, k < ticks /\
     (forall j, j < k -> nonTerminal (reply w url importLocation apiKey (i + j))) /\
     ((r = Ok tt /\
       reply w url importLocation apiKey (i + k) = Ok (Some ImportItemStatusProcessed)) \/
      (r = Err ErrFailed /\
       reply w url importLocation apiKey (i + k) = Ok (Some ImportItemStatusFailed)) \/
      (exists msg, r = Err (ErrLibrary msg) /\
         reply w url importLocation apiKey (i + k) = Err (ErrLibrary msg)))).
Proof.
  revert i doc. induction ticks as [|ticks IH]; intros i doc Hdoc r.
  - left. split; [reflexivity | intros j Hj; lia].
  - unfold r.
    remember (waitForProcessing_loop w url importLocation apiKey (S ticks) i doc)
      as L eqn:HL.
    cbn [waitForProcessing_loop] in HL.
    destruct (getStatus_cases w url importLocation apiKey i)
      as [[msg E] | [[msg E] | [member E]]].
    + right. exists 0. split; [lia|]. split; [intros j Hj; lia|]. right. right.
      exists msg. rewrite Nat.add_0_r. unfold reply. rewrite E in HL |- *.
      rewrite HL. split; reflexivity.
    + right. exists 0. split; [lia|]. split; [intros j Hj; lia|]. right. right.
      exists msg. rewrite Nat.add_0_r. unfold reply. rewrite E in HL |- *.
      rewrite HL. split; reflexivity.
    + assert (Hreply : reply w url importLocation apiKey i = Ok member)
        by (unfold reply; now rewrite E).
      rewrite E in HL. unfold bind at 1 2 in HL. cbn [emit] in HL.
      destruct (String.eqb (Status (updateStatus doc member)) ImportItemStatusFailed) eqn:Ef.
      { right. exists 0. split; [lia|]. split; [intros j Hj; lia|]. right. left.
        rewrite Nat.add_0_r, HL. split; [reflexivity|]. rewrite Hreply.
        apply String.eqb_eq in Ef. destruct member as [s|]; simpl in Ef.
        - now rewrite Ef.
        - now destruct Hdoc. }
      destruct (String.eqb (Status (updateStatus doc member)) ImportItemStatusProcessed) eqn:Ep.
      { right. exists 0. split; [lia|]. split; [intros j Hj; lia|]. left.
        rewrite Nat.add_0_r, HL. split; [reflexivity|]. rewrite Hreply.
        apply String.eqb_eq in Ep. destruct member as [s|]; simpl in Ep.
        - now rewrite Ep.
        - now destruct Hdoc. }
      apply String.eqb_neq in Ef, Ep.
      assert (Hnt : nonTerminal (reply w url importLocation apiKey i)).
      { exists member. split; [exact Hreply|].
        split; intros ->; simpl in Ef, Ep; congruence. }
      specialize (IH (S i) (updateStatus doc member) (conj Ef Ep)). cbn zeta in IH.
      cbn [bind emit] in HL.
      destruct (waitForProcessing_loop w url importLocation apiKey ticks (S i)
                  (updateStatus doc member)) as [t r'].
      rewrite HL. cbn [snd] in *.
      assert (Hshift : forall k, (forall j, j < k ->
                  nonTerminal (reply w url importLocation apiKey (S i + j))) ->
                forall j, j < S k -> nonTerminal (reply w url importLocation apiKey (i + j))).
      { intros k Hk [|j] Hj; [now rewrite Nat.add_0_r|].
        replace (i + S j) with (S i + j) by lia. apply Hk. lia. }
      destruct IH as [[Hr Hall] | (k & Hk & Hbefore & Hcase)].
      * left. split; [exact Hr|]. now apply Hshift.
      * right. exists (S k). split; [lia|]. split; [now apply Hshift|].
        replace (i + S k) with (S i + k) by lia. exact Hcase.
Qed.

(** X10: the outcome of [waitForProcessing] tells what was observed.
    No error means a response with status processed, the first terminal
    one, was received within the budget; "failed" means the same of a
    response with status failed; "not processed" means every response of
    the budget was non-terminal.  Any other error is the library error
    of an iteration within the budget that yielded no status document,
    every iteration before it having decoded a non-terminal response; the
    function does not panic. *)
Theorem X10_poll_outcome_meaning :
  forall (w : World) (url importLocation apiKey : string) (timeout : Z),
    let N := Z.to_nat timeout in
    let r := snd (waitForProcessing w url importLocation apiKey timeout) in
    (r = Ok tt ->
       exists k, k < N /\
         (forall j, j < k -> nonTerminal (reply w url importLocation apiKey j)) /\
         reply w url importLocation apiKey k = Ok (Some ImportItemStatusProcessed)) /\
    (r = Err ErrFailed ->
       exists k, k < N /\
         (forall j, j < k -> nonTerminal (reply w url importLocation apiKey j)) /\
         reply w url importLocation apiKey k = Ok (Some ImportItemStatusFailed)) /\
    (r = Err ErrNotProcessed ->
       forall j, j < N -> nonTerminal (reply w url importLocation apiKey j)) /\
    (forall e, r = Err e ->
       e = ErrFailed \/ e = ErrNotProcessed \/
       exists msg k, e = ErrLibrary msg /\ k < N /\
         (forall j, j < k -> nonTerminal (reply w url importLocation apiKey j)) /\
         reply w url importLocation apiKey k = Err (ErrLibrary msg)) /\
    (forall msg, r = Err (ErrLibrary msg) ->
       exists k, k < N /\
         (forall j, j < k -> nonTerminal (reply w url importLocation apiKey j)) /\
         reply w url importLocation apiKey k = Err (ErrLibrary msg)) /\
    (forall p, r <> Panic p).
Proof.
  intros w url importLocation apiKey timeout N r.
  assert (Hr : r = snd (waitForProcessing_loop w url importLocation apiKey N 0
                          {| Status := "" |})).
  { unfold r, waitForProcessing. rewrite snd_bind. reflexivity. }
  pose proof (waitForProcessing_loop_outcome w url importLocation apiKey N 0
                {| Status := "" |} pending_initial) as H.
  cbn zeta in H. rewrite <- Hr in H. cbn [Nat.add] in H.
  destruct H as [[-> Hall] | (k & Hk & Hbefore & [[-> Hk'] | [[-> Hk'] | (msg & -> & Hk')]])].
  - repeat split; try discriminate; eauto. intros e [= <-]. eauto.
  - repeat split; try discriminate; eauto.
  - repeat split; try discriminate; eauto. intros e [= <-]. eauto.
  - split; [discriminate|]. split; [discriminate|]. split; [discriminate|].
    split; [|split; [|discriminate]].
    + intros e [= <-]. right. right. exists msg, k. auto.
    + intros msg' [= <-]. exists k. auto.
Qed.

Lemma X10_poll_outcome_witness :
  let w := mockWorld [] 201
             (fun i => match i with 0 | 1 => "processing" | _ => "processed" end) [] in
  let w' := {| GoUnicode := mockUnicode;
               ParseFloat := fun _ => inl "invalid syntax";
               Marshal := fun _ => inr "{}";
               UnmarshalStatus := fun body => inr (Some body);
               UnmarshalImport := fun _ => inl "unexpected end of JSON input";
               NewRequest := fun _ _ => None;
               OpenFile := fun _ => None;
               GetRows := inr [];
               SetSheetRow := fun _ _ => None;
               SaveAs := fun _ => None;
               FileClose := None;
               DoSubmit := inr (response 201 "/jobs/1" "");
               DoStatus := fun i => match i with
                                    | 0 => inr (response 200 "" "pending")
                                    | _ => inl "connection refused"
                                    end;
               DoFetch := inr (response 200 "" "{}") |} in
  (snd (waitForProcessing w "http://h" "/jobs/1" "k" 120) = Ok tt /\
   exists k, k < Z.to_nat 120 /\
     reply w "http://h" "/jobs/1" "k" k = Ok (Some ImportItemStatusProcessed)) /\
  (snd (waitForProcessing w' "http://h" "/jobs/1" "k" 120)
     = Err (ErrLibrary "connection refused") /\
   exists k, k < Z.to_nat 120 /\
     reply w' "http://h" "/jobs/1" "k" k = Err (ErrLibrary "connection refused")).
Proof.
  intros w w'. split.
  - split; [reflexivity|].
    destruct (proj1 (X10_poll_outcome_meaning w "http://h" "/jobs/1" "k" 120) eq_refl)
      as (k & Hk & _ & Hreply).
    exists k. split; assumption.
  - split; [reflexivity|].
    destruct (X10_poll_outcome_meaning w' "http://h" "/jobs/1" "k" 120)
      as (_ & _ & _ & _ & Hlib & _).
    destruct (Hlib "connection refused" eq_refl) as (k & Hk & _ & Hreply).
    exists k. split; assumption.
Defined.

Lemma getStatus_withStatusCodes (code : nat -> nat) (w : World)
    (url importLocation apiKey : string) (i : nat) :
  getStatus (withStatusCodes code w) url importLocation apiKey i =
  getStatus w url importLocation apiKey i.
Proof.
  unfold getStatus, readBody. cbn [NewRequest DoStatus UnmarshalStatus withStatusCodes].
  destruct (NewRequest w _ _); [reflexivity|].
  destruct (DoStatus w i) as [msg|res]; reflexivity.
Qed.

Lemma waitForProcessing_loop_withStatusCodes (code : nat -> nat) (w : World)
    (url importLocation apiKey : string) (ticks i : nat) (doc : ImportStatus) :
  waitForProcessing_loop (withStatusCodes code w) url importLocation apiKey ticks i doc =
  waitForProcessing_loop w url importLocation apiKey ticks i doc.
Proof.
  revert i doc. induction ticks as [|ticks IH]; intros i doc; [reflexivity|].
  cbn [waitForProcessing_loop]. rewrite getStatus_withStatusCodes.
  destruct (getStatus w url importLocation apiKey i) as [t [member|e|p]];
    cbn [bind emit]; try reflexivity.
  destruct (String.eqb _ _); [reflexivity|].
  destruct (String.eqb _ _); [reflexivity|].
  cbn [bind emit]. now rewrite IH.
Qed.

(** X11: [waitForProcessing] never looks at the status code of a status
    response: with any other status codes on the same responses it does
    exactly the same. *)
Theorem X11_poll_ignores_status_code :
  forall (code : nat -> nat) (w : World) (url importLocation apiKey : string) (timeout : Z),
    waitForProcessing (withStatusCodes code w) url importLocation apiKey timeout =
    waitForProcessing w url importLocation apiKey timeout.
Proof.
  intros code w url importLocation apiKey timeout. unfold waitForProcessing.
  now rewrite waitForProcessing_loop_withStatusCodes.
Qed.

(** A status response with the code 500 and the status processed ends
    the polling with success. *)
Example poll_accepts_500 :
  waitForProcessing
    (withStatusCodes (fun _ => 500) (mockWorld [] 201 (fun _ => "processed") []))
    "http://h" "/jobs/1" "k" 120
  = ([EvPrintWaiting; EvPrintDot; EvHTTP "GET" "http://h/jobs/1/status" "Bearer k" None],
     Ok tt).
Proof. reflexivity. Qed.

(** ** The run: polling that does not succeed *)

(** X12: when the polling ends with an error the run ends there: a
    failed job with the message "error processing import", a timeout or a
    library error with that error.  The headings row, the submission and
    the status requests are all the run has done: nothing is fetched, no
    data row is written, nothing is saved, and the file is not closed. *)
Theorem X12_poll_failure_ends_run :
  forall (fl : Flags) (w : World) (rows : list (list string)) (headings : list string)
         (c : Columns) (items : list ImportItemRequest) (importLocation : string)
         (e : error),
    started fl w rows headings ->
    resolveColumns w headings = Ok c ->
    SetSheetRow w 1 (resultHeadings headings) = None ->
    mapRows w c (drop 1 rows) = Ok items ->
    snd (sendImportRequest w {| ImportItems := items |} (url fl) (apiKey fl))
      = Ok importLocation ->
    snd (waitForProcessing w (url fl) importLocation (apiKey fl) (timeout fl)) = Err e ->
    main fl w =
    ((EvSetSheetRow 1 (resultHeadings headings) ::
      fst (sendImportRequest w {| ImportItems := items |} (url fl) (apiKey fl)) ++
      fst (waitForProcessing w (url fl) importLocation (apiKey fl) (timeout fl)))%list,
     Err match e with ErrFailed => ErrProcessingImport | _ => e end).
Proof.
  intros fl w rows headings c items importLocation e Hs Hc Hset Hmap Hsend Hwait.
  rewrite (main_resolved fl w rows headings c Hs Hc), mainMap_eq. cbn zeta.
  rewrite Hset, Hmap. unfold mainImport.
  destruct (sendImportRequest w {| ImportItems := items |} (url fl) (apiKey fl))
    as [ts rs]. cbn [fst snd] in *. subst rs. cbn [bind].
  destruct (waitForProcessing w (url fl) importLocation (apiKey fl) (timeout fl))
    as [tw rw]. cbn [fst snd] in *. subst rw.
  destruct e; reflexivity.
Qed.

Lemma X12_poll_failure_witness :
  main mockFlags (mockWorld scenarioRows 201 (fun _ => "failed") [])
  = ([EvSetSheetRow 1
        ["id"; "name"; "description"; "customs territories"; "result EU"; "result NO"];
      EvHTTP "POST" "http://h/api/v1/items/imports" "Bearer k" (Some "{}");
      EvPrintWaiting; EvPrintDot; EvHTTP "GET" "http://h/jobs/1/status" "Bearer k" None],
     Err ErrProcessingImport).
Proof.
  set (w := mockWorld scenarioRows 201 (fun _ => "failed") []).
  destruct (mapRows w scenarioColumns (drop 1 scenarioRows)) as [items| |] eqn:Hmap;
    [|discriminate Hmap|discriminate Hmap].
  apply (X12_poll_failure_ends_run mockFlags w scenarioRows
           ["id"; "name"; "description"; "customs territories"] scenarioColumns
           items "/jobs/1" ErrFailed).
  - repeat split; try discriminate; reflexivity || (simpl; lia).
  - reflexivity.
  - reflexivity.
  - exact Hmap.
  - reflexivity.
  - reflexivity.
Defined.

(** ** The reconciler: the row written *)

Lemma pad_lookup (row : list string) (n j : nat) :
  pad row n !! j =
  if (j <? length row)%nat then row !! j
  else if (j <? n)%nat then Some "" else None.
Proof.
  unfold pad. destruct (j <? length row)%nat eqn:E1.
  - apply Nat.ltb_lt in E1. now apply lookup_app_l.
  - apply Nat.ltb_ge in E1. rewrite lookup_app_r by exact E1.
    destruct (j <? n)%nat eqn:E2.
    + apply Nat.ltb_lt in E2. apply lookup_replicate_2. lia.
    + apply Nat.ltb_ge in E2. apply lookup_ge_None_2. rewrite length_replicate. lia.
Qed.

(** X13: the reconciliation of an item that has a row and a code for
    each territory is one write, to the sheet row of the matched row
    (its index plus one).  The row written is the matched row, extended
    with empty cells to one cell more than the headings, with the two
    codes in the result columns; every other cell is as it was. *)
Theorem X13_reconcileItem_row :
  forall (w : World) (rows : list (list string)) (idIndex : nat)
         (headings : list string) (iResultEU iResultNO : nat)
         (item : ImportItemResponse) (i : nat) (row : list string)
         (taricEU taricNO : CustomsCodesResponse),
    getRowByItemID rows idIndex (itemID item) = Ok (i, Some row) ->
    iResultEU < length headings + 1 -> iResultNO < length headings + 1 ->
    iResultEU <> iResultNO ->
    getTaricByTerritory item customsTerritoryEU = Some taricEU ->
    getTaricByTerritory item customsTerritoryNO = Some taricNO ->
    exists row',
      reconcileItem w rows idIndex headings iResultEU iResultNO item =
        ([EvSetSheetRow (S i) row'],
         match SetSheetRow w (S i) row' with
         | Some msg => Err (ErrLibrary msg)
         | None => Ok tt
         end) /\
      rows !! i = Some row /\
      length row' = Nat.max (length row) (length headings + 1) /\
      row' !! iResultEU = Some (Code taricEU) /\
      row' !! iResultNO = Some (Code taricNO) /\
      forall j, j <> iResultEU -> j <> iResultNO ->
        row' !! j = if (j <? length row)%nat then row !! j
                    else if (j <? length headings + 1)%nat then Some "" else None.
Proof.
  intros w rows idIndex headings iResultEU iResultNO item i row taricEU taricNO
    Hrow HEU HNO Hne HtEU HtNO.
  pose proof (reconcileItem_found w rows idIndex headings iResultEU iResultNO item i row
                taricEU taricNO Hrow HEU HNO HtEU HtNO) as Hrec. cbn zeta in Hrec.
  pose proof (pad_length row (length headings + 1)) as Hpad.
  eexists. split; [exact Hrec|].
  apply getRowByItemID_from_found in Hrow as (j & -> & Hj & _). cbn [Nat.add].
  split; [exact Hj|]. split; [|split; [|split]].
  - rewrite !length_insert. unfold pad. rewrite length_app, length_replicate. lia.
  - rewrite list_lookup_insert_ne by (intros Heq; now apply Hne).
    apply list_lookup_insert_eq. lia.
  - apply list_lookup_insert_eq. rewrite length_insert. lia.
  - intros k HkEU HkNO.
    rewrite !list_lookup_insert_ne by (intros Heq; congruence).
    apply pad_lookup.
Qed.

Lemma X13_reconcileItem_witness :
  let item := mockItem "A2" [{| CustomsTerritory := "no"; Code := "8703.23" |};
                             {| CustomsTerritory := "eu"; Code := "8703.24" |}] in
  exists row',
    reconcileItem (mockWorld scenarioRows 201 (fun _ => "processed") [item])
      scenarioRows 0
      ["id"; "name"; "description"; "customs territories"; "result EU"; "result NO"]
      4 5 item
    = ([EvSetSheetRow 3 row'], Ok tt) /\
    length row' = 7 /\ row' !! 4 = Some "8703.24" /\ row' !! 5 = Some "8703.23".
Proof.
  intros item.
  destruct (X13_reconcileItem_row
              (mockWorld scenarioRows 201 (fun _ => "processed") [item])
              scenarioRows 0
              ["id"; "name"; "description"; "customs territories"; "result EU"; "result NO"]
              4 5 item 2 ["A2"; "car"; "a car"; "no"]
              {| CustomsTerritory := "eu"; Code := "8703.24" |}
              {| CustomsTerritory := "no"; Code := "8703.23" |})
    as (row' & Hrec & _ & Hlen & HEU & HNO & _);
    [reflexivity | simpl; lia | simpl; lia | lia | reflexivity | reflexivity |].
  exists row'. split; [exact Hrec|]. split; [exact Hlen|]. split; assumption.
Defined.

(** ** main.go: the result columns *)

Lemma getColumnIndex_from_app (w : World) (k : nat) (h l : list string) (name : string) :
  getColumnIndex_from w k (h ++ l) name =
  match getColumnIndex_from w k h name with
  | Some i => Some i
  | None => getColumnIndex_from w (k + length h) l name
  end.
Proof.
  revert k. induction h as [|x h IH]; intros k; simpl.
  - now rewrite Nat.add_0_r.
  - destruct (strings.EqualFold (GoUnicode w) name (strings.TrimSpace (GoUnicode w) x));
      [reflexivity|].
    rewrite IH. now replace (S k + length h) with (k + S (length h)) by lia.
Qed.

Lemma getColumnIndex_app_Some (w : World) (h l : list string) (name : string) (i : nat) :
  getColumnIndex w h name = Some i -> getColumnIndex w (h ++ l) name = Some i.
Proof. unfold getColumnIndex. rewrite getColumnIndex_from_app. now intros ->. Qed.

Lemma getColumnIndex_in_range (w : World) (h : list string) (name : string) (i : nat) :
  getColumnIndex w h name = Some i ->
  exists x, h !! i = Some x /\ headingMatches w name x.
Proof.
  unfold getColumnIndex. intros (j & x & -> & Hj & Hm & _)%getColumnIndex_from_Some. eauto.
Qed.

Lemma ensureColumn_spec (w : World) (headings : list string) (name : string) :
  strings.EqualFold (GoUnicode w) name (strings.TrimSpace (GoUnicode w) name) = true ->
  exists i,
    MainGo.ensureColumn w headings name =
      ((headings ++ match getColumnIndex w headings name with
                    | None => [name]
                    | Some _ => []
                    end)%list, Some i) /\
    getColumnIndex w (fst (MainGo.ensureColumn w headings name)) name = Some i.
Proof.
  intros Hself. unfold MainGo.ensureColumn.
  destruct (getColumnIndex w headings name) as [i|] eqn:E.
  - exists i. rewrite app_nil_r. split; [reflexivity | exact E].
  - assert (Hnew : getColumnIndex w (headings ++ [name]) name = Some (length headings)).
    { unfold getColumnIndex in *. rewrite getColumnIndex_from_app, E. simpl.
      now rewrite Hself. }
    exists (length headings). cbn [fst]. rewrite Hnew. split; reflexivity.
Qed.

(** X14: in the older [main], the two result columns are looked up
    before they are created.  Whatever the headings, both pointers are
    non-nil afterwards (the later reads through them cannot panic), they
    are two different positions inside the headings written, and only the
    missing ones of "actualEU" and "actualNO" are appended, in that order.
    Headings that went through this once are left as they are. *)
Theorem X14_result_columns_reused :
  forall (w : World) (headings : list string),
    exists headings' a b,
      MainGo.resultColumns w headings = (headings', Some a, Some b) /\
      headings' =
        (headings ++
         match getColumnIndex w headings "actualEU" with None => ["actualEU"] | Some _ => [] end ++
         match getColumnIndex w headings "actualNO" with None => ["actualNO"] | Some _ => [] end)%list /\
      a < length headings' /\ b < length headings' /\ a <> b /\
      getColumnIndex w headings' "actualEU" = Some a /\
      getColumnIndex w headings' "actualNO" = Some b /\
      MainGo.resultColumns w headings' = (headings', Some a, Some b).
Proof.
  intros w headings. unfold MainGo.resultColumns.
  destruct (ensureColumn_spec w headings "actualEU" eq_refl) as (a & HEU & HaEU).
  rewrite HEU in HaEU |- *. cbn [fst] in HaEU.
  set (h1 := (headings ++ match getColumnIndex w headings "actualEU" with
                          | None => ["actualEU"] | Some _ => [] end)%list) in *.
  destruct (ensureColumn_spec w h1 "actualNO" eq_refl) as (b & HNO & HbNO).
  rewrite HNO in HbNO |- *. cbn [fst] in HbNO.
  assert (Hsame : getColumnIndex w h1 "actualNO" = getColumnIndex w headings "actualNO").
  { unfold h1. destruct (getColumnIndex w headings "actualEU"); [now rewrite app_nil_r|].
    unfold getColumnIndex. rewrite getColumnIndex_from_app.
    now destruct (getColumnIndex_from w 0 headings "actualNO"). }
  rewrite Hsame in HbNO |- *.
  set (h2 := (h1 ++ match getColumnIndex w headings "actualNO" with
                    | None => ["actualNO"] | Some _ => [] end)%list) in *.
  assert (HaEU' : getColumnIndex w h2 "actualEU" = Some a)
    by now apply getColumnIndex_app_Some.
  destruct (getColumnIndex_in_range _ _ _ _ HaEU') as (xa & Hxa & Hma).
  destruct (getColumnIndex_in_range _ _ _ _ HbNO) as (xb & Hxb & Hmb).
  exists h2, a, b. split; [reflexivity|]. split; [unfold h2, h1; now rewrite <- app_assoc|].
  split; [now apply lookup_lt_Some in Hxa|]. split; [now apply lookup_lt_Some in Hxb|].
  split; [|split; [exact HaEU'|split; [exact HbNO|]]].
  - intros ->. rewrite Hxa in Hxb. injection Hxb as ->.
    unfold headingMatches in Hma, Hmb. rewrite Hma in Hmb.
    vm_compute in Hmb. discriminate Hmb.
  - unfold MainGo.ensureColumn. rewrite HaEU', HbNO. reflexivity.
Qed.

(** Headings that already end with the two columns, in another case. *)
Example resultColumns_existing :
  forall w : World,
  MainGo.resultColumns w ["id"; "name"; "ActualNO"; " actualeu "]
  = (["id"; "name"; "ActualNO"; " actualeu "], Some 3, Some 2).
Proof. reflexivity. Qed.

(** The newer [main] does not look: a sheet that has a "result EU"
    column gets a second one. *)
Example resultHeadings_appends :
  resultHeadings ["id"; "result EU"; "result NO"]
  = ["id"; "result EU"; "result NO"; "result EU"; "result NO"].
Proof. reflexivity. Qed.

(** ** The run: when the output is saved *)

Lemma sendImportRequest_noSaveAs (w : World) (imp : ImportRequest) (url apiKey : string) :
  Forall (fun ev => isSaveAs ev = false) (fst (sendImportRequest w imp url apiKey)).
Proof.
  unfold sendImportRequest.
  destruct (Marshal w imp); simpl; [constructor|].
  destruct (NewRequest w _ _); simpl; [constructor|].
  destruct (DoSubmit w) as [msg|res]; simpl; [repeat constructor|].
  destruct (negb _); simpl; repeat constructor.
Qed.

Lemma getImportResponse_noSaveAs (w : World) (url importLocation apiKey : string) :
  Forall (fun ev => isSaveAs ev = false)
         (fst (getImportResponse w url importLocation apiKey)).
Proof.
  unfold getImportResponse, readBody.
  destruct (NewRequest w _ _); simpl; [constructor|].
  destruct (DoFetch w) as [msg|res]; simpl; [repeat constructor|].
  destruct (negb _); simpl; [repeat constructor|].
  destruct (ReadAll res) as [resBody [msg|]]; simpl; [repeat constructor|].
  destruct (BodyClose res); simpl; [repeat constructor|].
  destruct (UnmarshalImport w resBody); simpl; repeat constructor.
Qed.

Lemma waitForProcessing_loop_noSaveAs (w : World) (url importLocation apiKey : string)
    (ticks i : nat) (doc : ImportStatus) :
  Forall (fun ev => isSaveAs ev = false)
         (fst (waitForProcessing_loop w url importLocation apiKey ticks i doc)).
Proof.
  revert i doc. induction ticks as [|ticks IH]; intros i doc; [repeat constructor|].
  destruct (waitForProcessing_loop_S w url importLocation apiKey ticks i doc)
    as [[e ->] | [[r ->] | ->]]; [repeat constructor | repeat constructor |].
  specialize (IH (S i) (updateStatus doc (member_of (reply w url importLocation apiKey i)))).
  destruct (waitForProcessing_loop w url importLocation apiKey ticks (S i) _) as [t r].
  cbn [fst] in *. apply Forall_app. split; [repeat constructor | exact IH].
Qed.

Lemma reconcileItem_trace (w : World) (rows : list (list string)) (idIndex : nat)
    (headings : list string) (iResultEU iResultNO : nat) (item : ImportItemResponse) :
  Forall (fun ev => isSetSheetRow ev = true)
         (fst (reconcileItem w rows idIndex headings iResultEU iResultNO item)).
Proof.
  unfold reconcileItem.
  destruct (getRowByItemID rows idIndex (itemID item)) as [[i [row|]]|e|p];
    cbn [lift bind fail fst app]; try constructor.
  destruct (getTaricByTerritory item customsTerritoryEU);
    cbn [deref_Code lift bind fst app]; [|constructor].
  destruct (assign _ _ _); cbn [lift bind fst app]; try constructor.
  destruct (getTaricByTerritory item customsTerritoryNO);
    cbn [deref_Code lift bind fst app]; [|constructor].
  destruct (assign _ _ _); cbn [lift bind fst app emit]; try constructor.
  destruct (libErr _) as [t r] eqn:E. unfold libErr in E.
  destruct (SetSheetRow w _ _); injection E as <- <-; repeat constructor.
Qed.

Lemma reconcile_trace (w : World) (rows : list (list string)) (idIndex : nat)
    (headings : list string) (iResultEU iResultNO : nat) (items : list ImportItemResponse) :
  Forall (fun ev => isSetSheetRow ev = true)
         (fst (reconcile w rows idIndex headings iResultEU iResultNO items)).
Proof.
  induction items as [|item items IH]; [constructor|].
  cbn [reconcile]. rewrite fst_bind. apply Forall_app. split.
  - apply reconcileItem_trace.
  - destruct (snd (reconcileItem _ _ _ _ _ _ _)); [exact IH | constructor | constructor].
Qed.

Lemma not_saved_in (t : list event) (p : string) :
  Forall (fun ev => isSaveAs ev = false) t -> EvSaveAs p ∈ t -> False.
Proof.
  intros Ht Hin. rewrite Forall_forall in Ht. specialize (Ht _ Hin). discriminate Ht.
Qed.

Lemma mainReconcile_saves (fl : Flags) (w : World) (rows : list (list string))
    (c : Columns) (headings : list string) (iResultEU iResultNO : nat)
    (importResponse : ImportResponse) (p : string) :
  EvSaveAs p ∈ fst (mainReconcile fl w rows c headings iResultEU iResultNO importResponse) ->
  p = outputPath fl /\
  snd (reconcile w rows (iID c) headings iResultEU iResultNO (responseItems importResponse))
    = Ok tt.
Proof.
  unfold mainReconcile. rewrite fst_bind.
  pose proof (reconcile_trace w rows (iID c) headings iResultEU iResultNO
                (responseItems importResponse)) as Htrace.
  intros [Hin | Hin]%elem_of_app.
  - exfalso. rewrite Forall_forall in Htrace. specialize (Htrace _ Hin). discriminate Htrace.
  - destruct (snd (reconcile _ _ _ _ _ _ _)) as [[]|e|q];
      [| now apply elem_of_nil in Hin | now apply elem_of_nil in Hin].
    split; [|reflexivity].
    destruct (SaveAs w (outputPath fl)); cbn in Hin;
      repeat (apply elem_of_cons in Hin as [Hin | Hin]; [congruence|]);
      now apply elem_of_nil in Hin.
Qed.

Lemma mainImport_saves (fl : Flags) (w : World) (rows : list (list string))
    (c : Columns) (headings : list string) (iResultEU iResultNO : nat)
    (items : list ImportItemRequest) (p : string) :
  EvSaveAs p ∈ fst (mainImport fl w rows c headings iResultEU iResultNO items) ->
  p = outputPath fl /\
  exists importLocation importResponse,
    snd (sendImportRequest w {| ImportItems := items |} (url fl) (apiKey fl))
      = Ok importLocation /\
    snd (waitForProcessing w (url fl) importLocation (apiKey fl) (timeout fl)) = Ok tt /\
    snd (getImportResponse w (url fl) importLocation (apiKey fl)) = Ok importResponse /\
    snd (reconcile w rows (iID c) headings iResultEU iResultNO
           (responseItems importResponse)) = Ok tt.
Proof.
  unfold mainImport. rewrite fst_bind.
  intros [Hin | Hin]%elem_of_app;
    [exfalso; exact (not_saved_in _ _ (sendImportRequest_noSaveAs _ _ _ _) Hin)|].
  destruct (snd (sendImportRequest w _ (url fl) (apiKey fl))) as [importLocation|e|q] eqn:Es;
    [| now apply elem_of_nil in Hin | now apply elem_of_nil in Hin].
  rewrite fst_bind in Hin. apply elem_of_app in Hin as [Hin | Hin].
  { exfalso. rewrite checkProcessing_fst in Hin. unfold waitForProcessing in Hin.
    rewrite fst_bind in Hin. cbn [emit fst snd] in Hin.
    apply elem_of_app in Hin as [Hin | Hin].
    - apply elem_of_cons in Hin as [Hin | Hin]; [discriminate Hin|].
      now apply elem_of_nil in Hin.
    - exact (not_saved_in _ _ (waitForProcessing_loop_noSaveAs _ _ _ _ _ _ _) Hin). }
  destruct (snd (checkProcessing _)) as [[]|e|q] eqn:Ew;
    [| now apply elem_of_nil in Hin | now apply elem_of_nil in Hin].
  apply checkProcessing_Ok in Ew.
  rewrite fst_bind in Hin. apply elem_of_app in Hin as [Hin | Hin];
    [exfalso; exact (not_saved_in _ _ (getImportResponse_noSaveAs _ _ _ _) Hin)|].
  destruct (snd (getImportResponse w (url fl) importLocation (apiKey fl)))
    as [importResponse|e|q] eqn:Eg;
    [| now apply elem_of_nil in Hin | now apply elem_of_nil in Hin].
  apply mainReconcile_saves in Hin as [-> Hrec].
  split; [reflexivity|]. exists importLocation, importResponse. auto.
Qed.

(** X15: the output file is saved only at the end of a run in which
    everything before has succeeded: the mapping, the submission, the
    polling, the fetch and the reconciliation of every item of the
    response; and it is saved to the [--output] path.  A run that exits
    with status 0 without the help flag has saved it. *)
Theorem X15_saved_only_after_success :
  forall (fl : Flags) (w : World),
    (forall p, EvSaveAs p ∈ fst (main fl w) ->
       p = outputPath fl /\
       exists importLocation rows headings c importResponse,
         priorStagesSucceeded fl w importLocation /\
         started fl w rows headings /\ resolveColumns w headings = Ok c /\
         snd (getImportResponse w (url fl) importLocation (apiKey fl)) = Ok importResponse /\
         snd (reconcile w rows (iID c) (resultHeadings headings) (length headings)
                (length (headings ++ ["result EU"])) (responseItems importResponse))
           = Ok tt) /\
    (help fl = false -> snd (main fl w) = Ok tt ->
       EvSaveAs (outputPath fl) ∈ fst (main fl w) /\ SaveAs w (outputPath fl) = None).
Proof.
  intros fl w. split.
  - intros p Hin.
    destruct (main_early fl w) as [(rows & headings & Hs) | [[_ He] | [e He]]];
      [| rewrite He in Hin; apply elem_of_cons in Hin as [Hin | Hin];
         [discriminate Hin | now apply elem_of_nil in Hin]
       | rewrite He in Hin; now apply elem_of_nil in Hin].
    rewrite (main_started fl w rows headings Hs) in Hin.
    assert (Hbody : EvSaveAs p ∈ fst (do c <- lift (resolveColumns w headings);
                                      mainMap fl w rows headings c)).
    { destruct (deferredClose_fst w (do c <- lift (resolveColumns w headings);
                                     mainMap fl w rows headings c)) as [E | E];
        rewrite E in Hin; [exact Hin|].
      apply elem_of_app in Hin as [Hin | Hin]; [exact Hin|].
      apply elem_of_cons in Hin as [Hin | Hin]; [discriminate Hin|].
      now apply elem_of_nil in Hin. }
    rewrite fst_bind in Hbody. cbn [lift fst snd app] in Hbody.
    destruct (resolveColumns w headings) as [c|e|q] eqn:Hc;
      [| now apply elem_of_nil in Hbody | now apply elem_of_nil in Hbody].
    rewrite mainMap_eq in Hbody. cbn zeta in Hbody.
    destruct (SetSheetRow w 1 (resultHeadings headings));
      [apply elem_of_cons in Hbody as [Hb | Hb];
         [discriminate Hb | now apply elem_of_nil in Hb]|].
    destruct (mapRows w c (drop 1 rows)) as [items|e|q] eqn:Hmap;
      [| apply elem_of_cons in Hbody as [Hb | Hb];
           [discriminate Hb | now apply elem_of_nil in Hb]
       | apply elem_of_cons in Hbody as [Hb | Hb];
           [discriminate Hb | now apply elem_of_nil in Hb]].
    cbn [fst] in Hbody. apply elem_of_cons in Hbody as [Hb | Hb]; [discriminate Hb|].
    apply mainImport_saves in Hb
      as (-> & importLocation & importResponse & Hsend & Hwait & Hget & Hrec).
    split; [reflexivity|].
    exists importLocation, rows, headings, c, importResponse.
    split; [exists rows, headings, c, items, importResponse; auto 10|]. auto.
  - intros Hhelp Hok.
    destruct (main_early fl w) as [(rows & headings & Hs) | [[Hh _] | [e He]]];
      [| congruence | rewrite He in Hok; discriminate Hok].
    rewrite (main_started fl w rows headings Hs) in Hok |- *.
    apply deferredClose_Ok in Hok.
    set (body := do c <- lift (resolveColumns w headings); mainMap fl w rows headings c) in *.
    assert (Hbody : EvSaveAs (outputPath fl) ∈ fst body /\ SaveAs w (outputPath fl) = None).
    { unfold body in *. rewrite fst_bind. rewrite snd_bind in Hok.
      cbn [lift fst snd app] in *.
      destruct (resolveColumns w headings) as [c|e|q]; try discriminate Hok.
      rewrite mainMap_eq in Hok |- *. cbn zeta in *.
      destruct (SetSheetRow w 1 (resultHeadings headings)); [discriminate Hok|].
      destruct (mapRows w c (drop 1 rows)) as [items|e|q]; try discriminate Hok.
      cbn [fst snd] in *.
      destruct (mainImport_shape fl w rows c (resultHeadings headings) (length headings)
                  (length (headings ++ ["result EU"])) items)
        as [[_ Hnot] | (importLocation & importResponse & net & _ & _ & _ & _ & _
                        & Hfst & Hsnd)]; [now apply Hnot in Hok|].
      rewrite Hsnd in Hok. rewrite Hfst. unfold mainReconcile in *.
      rewrite snd_bind in Hok. rewrite fst_bind.
      destruct (snd (reconcile _ _ _ _ _ _ _)) as [[]|e|q]; try discriminate Hok.
      destruct (SaveAs w (outputPath fl)); [discriminate Hok|].
      split; [|reflexivity].
      apply elem_of_cons. right. apply elem_of_app. right. apply elem_of_app. right.
      cbn. left. }
    destruct Hbody as [Hin Hsave]. split; [|exact Hsave].
    destruct (deferredClose_fst w body) as [-> | ->]; [exact Hin|].
    apply elem_of_app. now left.
Qed.

Lemma X15_saved_witness :
  let w := mockWorld scenarioRows 201 (fun _ => "processed")
             [mockItem "A1" [{| CustomsTerritory := "eu"; Code := "8471.30" |};
                             {| CustomsTerritory := "no"; Code := "8471.30" |}]] in
  help mockFlags = false /\ snd (main mockFlags w) = Ok tt /\
  EvSaveAs "result.xlsx" ∈ fst (main mockFlags w).
Proof.
  intros w. split; [reflexivity|]. split; [reflexivity|].
  apply (proj2 (X15_saved_only_after_success mockFlags w)); reflexivity.
Defined.

(** ** The mapping loop *)

Lemma mapRows_app (w : World) (c : Columns) (a b : list (list string))
    (ia ib : list ImportItemRequest) :
  mapRows w c a = Ok ia -> mapRows w c b = Ok ib ->
  mapRows w c (a ++ b) = Ok (ia ++ ib)%list.
Proof.
  revert ia. induction a as [|row a IH]; intros ia; simpl.
  - intros [= <-] Hb. exact Hb.
  - intros Ha Hb.
    apply rbind_Ok_inv in Ha as (item & Hitem & Ha).
    apply rbind_Ok_inv in Ha as (rest & Hrest & Ha). injection Ha as <-.
    now rewrite Hitem, (IH rest Hrest Hb).
Qed.

(** X16: the batch has one record per data row, in row order, each
    with the identifier of its row; the rows are mapped one by one, so a
    sheet made of two sheets that map gives the two batches one after the
    other.  In particular an identifier that occurs in two rows is not
    rejected. *)
Theorem X16_mapRows_batch :
  forall (w : World) (c : Columns),
    (forall rows items, mapRows w c rows = Ok items ->
       length items = length rows /\
       Forall2 (fun row item => mapRow w c row = Ok item /\ row !! iID c = Some (ID item))
               rows items) /\
    (forall a b ia ib, mapRows w c a = Ok ia -> mapRows w c b = Ok ib ->
       mapRows w c (a ++ b) = Ok (ia ++ ib)%list) /\
    (forall row item, mapRow w c row = Ok item ->
       mapRows w c [row; row] = Ok [item; item]).
Proof.
  intros w c. split; [|split].
  - intros rows items Hok%mapRows_Ok_inv.
    split; [symmetry; now apply Forall2_length in Hok|].
    eapply Forall2_impl; [exact Hok|]. intros row item Hitem. split; [exact Hitem|].
    now apply mapRow_Ok_inv in Hitem as (_ & _ & _ & Hid).
  - apply mapRows_app.
  - intros row item Hitem. simpl. now rewrite Hitem.
Qed.

Lemma X16_mapRows_witness :
  exists items,
    mapRows (mockWorld [] 201 (fun _ => "processed") []) scenarioColumns
      [["A1"; "laptop"; "a laptop"; "eu"]; ["A1"; "car"; "a car"; "no"]] = Ok items /\
    length items = 2.
Proof.
  eexists. split; [reflexivity|].
  apply (proj1 (X16_mapRows_batch (mockWorld [] 201 (fun _ => "processed") [])
                  scenarioColumns)
           [["A1"; "laptop"; "a laptop"; "eu"]; ["A1"; "car"; "a car"; "no"]]).
  reflexivity.
Defined.

Lemma X2_getTaricByTerritory_witness :
  let item := mockItem "A1" [{| CustomsTerritory := "no"; Code := "1" |};
                             {| CustomsTerritory := "eu"; Code := "2" |};
                             {| CustomsTerritory := "eu"; Code := "3" |}] in
  getTaricByTerritory item "eu" = Some {| CustomsTerritory := "eu"; Code := "2" |} /\
  CustomsTerritory {| CustomsTerritory := "eu"; Code := "2" |} = "eu" /\
  getTaricByTerritory item "ch" = None.
Proof.
  intros item. split; [reflexivity|]. split.
  - apply (proj1 (X2_getTaricByTerritory_first item "eu")
             {| CustomsTerritory := "eu"; Code := "2" |} eq_refl).
  - apply (proj2 (X2_getTaricByTerritory_first item "ch")).
    repeat constructor; discriminate.
Defined.
